(** * VirtualComms: the simulated printer driver of AstroBox

    A shallow embedding of [src/plugins/virtualcomms/__init__.py]:
    the [VirtualComms] plugin (connection / print state machine), the
    [TempsChanger] thread (temperature ramp) and the [JobSimulator] thread
    (print job), together with the properties of the specification that
    concern them.

    Conventions of the embedding.
    - Python objects that are shared between threads ([TempsChanger],
      [JobSimulator], [threading.Timer]) live in a store, and the plugin
      holds indices into it; a thread is a record with a program counter
      and a step function.
    - Calls to collaborators (printer manager, file manager, event bus) are
      recorded in a trace.  Calls to [self._logger] are not recorded.
    - Python 2 numbers: [int] is [Z]; [float] is idealised as [Q] (exact
      rationals, no rounding, no [inf]/[nan]).
    - Time is not modelled: a [threading.Timer] fires, and [time.sleep]
      returns, whenever the scheduler picks that step.
    - A method call, the function of a timer and a step of a worker thread
      are atomic; the scheduler interleaves them freely.  Where a property
      depends on what happens inside a call, the call is also given
      statement by statement ([cancel] of a job, [setTarget] of a ramp).
    - [printerManager.selectedFile] is always a file with a [filename] and
      an [origin]. *)

From stdpp Require Import gmap strings list fin_maps.
From Stdlib Require Import Ascii ZArith QArith.

Close Scope Q_scope.

Set Warnings "-register-all".

(** ** Python values and exceptions *)

Module Py.

Inductive exn :=
  | Exception (msg : string)
  | KeyError
  | IndexError
  | TypeError
  | ZeroDivisionError
  | ValueError
  | YAMLError.

Inductive result (A : Type) :=
  | Ok (a : A)
  | Raise (e : exn).
Arguments Ok {A} a.
Arguments Raise {A} e.

Definition is_ok {A} (r : result A) : bool :=
  match r with Ok _ => true | Raise _ => false end.

(** The keys of a dictionary: strings, or integers ([True] and [False]
    are the keys [1] and [0]).  Dictionaries keyed by floats or by [None]
    are outside the modelled documents. *)
Inductive key :=
  | KStr (s : string)
  | KInt (n : Z).
Coercion KStr : string >-> key.

Definition key_eqb (k k' : key) : bool :=
  match k, k' with
  | KStr s, KStr s' => String.eqb s s'
  | KInt n, KInt n' => (n =? n')%Z
  | _, _ => false
  end.

(** The values a YAML document can hold and that the settings dictionary
    stores: scalars, sequences and mappings. *)
Inductive value :=
  | VNone
  | VBool (b : bool)
  | VInt (n : Z)
  | VFloat (q : Q)
  | VStr (s : string)
  | VList (l : list value)
  | VDict (d : list (key * value)).

Definition is_dict (v : value) : bool :=
  match v with VDict _ => true | _ => false end.

(** Python truthiness, as tested by [if config:]. *)
Definition truthy (v : value) : bool :=
  match v with
  | VNone => false
  | VBool b => b
  | VInt n => negb (n =? 0)%Z
  | VFloat q => negb (Qnum q =? 0)%Z
  | VStr s => negb (String.eqb s "")
  | VList l => match l with [] => false | _ => true end
  | VDict d => match d with [] => false | _ => true end
  end.

(** [d[k]] and [d[k] = v] on a dictionary kept as an association list. *)
Fixpoint dict_get {A} (k : key) (d : list (key * A)) : option A :=
  match d with
  | [] => None
  | (k', v) :: d' => if key_eqb k k' then Some v else dict_get k d'
  end.

Fixpoint dict_set {A} (k : key) (v : A) (d : list (key * A))
  : list (key * A) :=
  match d with
  | [] => [(k, v)]
  | (k', v') :: d' =>
      if key_eqb k k' then (k', v) :: d' else (k', v') :: dict_set k v d'
  end.

(** A value used as the index of a sequence: an [int] or a [bool]. *)
Definition as_index (v : value) : option Z :=
  match v with
  | VInt n => Some n
  | VBool b => Some (Z.b2z b)
  | _ => None
  end.

(** The position index [i] denotes in a sequence of length [n]; a
    negative index counts from the end. *)
Definition position (i : Z) (n : nat) : option nat :=
  if (0 <=? i)%Z && (i <? Z.of_nat n)%Z then Some (Z.to_nat i)
  else if (- Z.of_nat n <=? i)%Z && (i <? 0)%Z
       then Some (Z.to_nat (i + Z.of_nat n))
       else None.

(** The characters of a string, each a string of length one. *)
Fixpoint chars (s : string) : list value :=
  match s with
  | EmptyString => []
  | String c s' => VStr (String c EmptyString) :: chars s'
  end.

(** [a[k]]: [KeyError] for a key a dictionary does not have, [IndexError]
    for a position outside a sequence or a string, [TypeError] for a
    string used as an index and for a value that has no items. *)
Definition subscript (a : value) (k : key) : result value :=
  match a with
  | VDict ad =>
      match dict_get k ad with Some v => Ok v | None => Raise KeyError end
  | VList al =>
      match k with
      | KInt i =>
          match position i (length al) with
          | Some p =>
              match al !! p with Some v => Ok v | None => Raise IndexError end
          | None => Raise IndexError
          end
      | KStr _ => Raise TypeError
      end
  | VStr s =>
      match k with
      | KInt i =>
          match position i (String.length s) with
          | Some p =>
              match chars s !! p with
              | Some v => Ok v
              | None => Raise IndexError
              end
          | None => Raise IndexError
          end
      | KStr _ => Raise TypeError
      end
  | _ => Raise TypeError
  end.

(** [a[k] = v]: the updated [a].  Only dictionaries and sequences support
    item assignment. *)
Definition store (a : value) (k : key) (v : value) : result value :=
  match a with
  | VDict ad => Ok (VDict (dict_set k v ad))
  | VList al =>
      match k with
      | KInt i =>
          match position i (length al) with
          | Some p => Ok (VList (<[p := v]> al))
          | None => Raise IndexError
          end
      | KStr _ => Raise TypeError
      end
  | _ => Raise TypeError
  end.

(** [a] once the object [a[k]] has been updated in place to [v].  (The
    character of a string is never updated: a merge into it that returns
    has changed nothing.) *)
Definition updated (a : value) (k : key) (v : value) : value :=
  match store a k v with
  | Ok a' => a'
  | Raise _ => a
  end.

(** Numbers produced by arithmetic: Python 2 [int] or [float]. *)
Inductive number :=
  | NInt (n : Z)
  | NFloat (q : Q).

Definition to_Q (x : number) : Q :=
  match x with NInt n => inject_Z n | NFloat q => q end.

(** [x < 1] *)
Definition lt_one (x : number) : bool :=
  match x with
  | NInt n => (n <? 1)%Z
  | NFloat q => negb (Qle_bool 1 q)
  end.

(** [x >= 1] *)
Definition ge_one (x : number) : bool :=
  match x with
  | NInt n => (1 <=? n)%Z
  | NFloat q => Qle_bool 1 q
  end.

(** [n / d] for an [int] numerator, as Python 2 evaluates it: floor
    division between integers ([bool] is an [int]), true division by a
    [float], [ZeroDivisionError] on a zero divisor, [TypeError] otherwise. *)
Definition div (n : Z) (d : value) : result number :=
  match d with
  | VInt m => if (m =? 0)%Z then Raise ZeroDivisionError else Ok (NInt (n / m))
  | VBool b => if b then Ok (NInt (n / 1)) else Raise ZeroDivisionError
  | VFloat q =>
      if (Qnum q =? 0)%Z then Raise ZeroDivisionError
      else Ok (NFloat (inject_Z n / q))
  | _ => Raise TypeError
  end.

(** [os.path.basename]: what follows the last slash. *)
Fixpoint basename (p : string) : string :=
  match p with
  | EmptyString => EmptyString
  | String c p' =>
      let r := basename p' in
      if Ascii.eqb c "/"%char then r
      else if String.eqb r p' then p else r
  end.

End Py.
Export Py.

(** ** Settings: defaults and the merge of the configuration file *)

Module Settings.

(** The initial [self._settings] of [initPrinterCommsService]. *)
Definition defaults : list (key * value) :=
  [ (KStr "connection", VFloat 1); (KStr "heatingUp", VFloat 2);
    (KStr "printJob", VFloat 10) ].

(** The local function [merge_dict(a, b)].  [a] is updated in place in the
    source; here the updated [a] is returned.  [for key in b] runs over
    the keys of a mapping, the elements of a sequence and the characters of
    a string, and raises [TypeError] for any other [b]; [b[key]] is then
    the value under the key, for a sequence the element at the position
    its own element denotes, and for a string a [TypeError] (a character is
    not an index). *)
Fixpoint merge_dict (a b : value) {struct b} : result value :=
  match b with
  | VDict bd =>
      (fix loop (a : value) (l : list (key * value)) {struct l}
         : result value :=
         match l with
         | [] => Ok a
         | (key, bv) :: rest =>
             match bv with
             | VDict _ =>
                 (* merge_dict(a[key], b[key]) *)
                 match subscript a key with
                 | Raise e => Raise e
                 | Ok av =>
                     match merge_dict av bv with
                     | Ok av' => loop (updated a key av') rest
                     | Raise e => Raise e
                     end
                 end
             | _ =>
                 (* a[key] = b[key] *)
                 match store a key bv with
                 | Ok a' => loop a' rest
                 | Raise e => Raise e
                 end
             end
         end) a bd
  | VList bl =>
      (* merge_dict(_, x) for each element x of b, by position *)
      let into :=
        (fix each (l : list value) : list (value → result value) :=
           match l with
           | [] => []
           | x :: l' => (fun av => merge_dict av x) :: each l'
           end) bl in
      (fix loop (a : value) (l : list value) {struct l} : result value :=
         match l with
         | [] => Ok a
         | key :: rest =>
             (* b[key] *)
             match as_index key with
             | None => Raise TypeError
             | Some i =>
                 match position i (length bl) with
                 | None => Raise IndexError
                 | Some p =>
                     match bl !! p, into !! p with
                     | Some bv, Some merge_into =>
                         if is_dict bv then
                           (* merge_dict(a[key], b[key]) *)
                           match subscript a (KInt i) with
                           | Raise e => Raise e
                           | Ok av =>
                               match merge_into av with
                               | Ok av' => loop (updated a (KInt i) av') rest
                               | Raise e => Raise e
                               end
                           end
                         else
                           (* a[key] = b[key] *)
                           match store a (KInt i) bv with
                           | Ok a' => loop a' rest
                           | Raise e => Raise e
                           end
                     | _, _ => Raise IndexError
                     end
                 end
             end
         end) a bl
  | VStr s => if String.eqb s "" then Ok a else Raise TypeError
  | _ => Raise TypeError
  end.

(** What [os.path.isfile] and [yaml.safe_load] find: no file, a file that
    is not valid YAML ([yaml.safe_load] raises and nothing catches it), or
    a parsed document. *)
Inductive settings_file :=
  | NoFile
  | Unparsable
  | Document (config : value).

(** The settings part of [initPrinterCommsService]. *)
Definition load_settings (f : settings_file) : result value :=
  let settings := VDict defaults in
  match f with
  | NoFile => Ok settings
  | Unparsable => Raise YAMLError
  | Document config =>
      if truthy config then merge_dict settings config else Ok settings
  end.

(** *** Notions used to state the properties *)

(** The dictionary after assigning the entries of [b] in order. *)
Definition assign_all (b ad : list (key * value)) : list (key * value) :=
  foldl (fun d kv => dict_set kv.1 kv.2 d) ad b.

(** What a successful merge of a mapping with distinct keys leaves under
    each key of a dictionary. *)
Definition merged_entry (ad b : list (key * value)) (k : key)
  : option value :=
  match dict_get k b with
  | None => dict_get k ad
  | Some bv =>
      if is_dict bv then
        match dict_get k ad with
        | Some av =>
            match merge_dict av bv with
            | Ok av' => Some av'
            | Raise _ => None
            end
        | None => None
        end
      else Some bv
  end.

Definition scalars (d : list (key * value)) : Prop :=
  Forall (fun kv => is_dict kv.2 = false) d.

(** What [b[key]] is when [key] is an element of the sequence [b]: the
    integer it is as a key, and the element at the position it denotes. *)
Definition denoted (bl : list value) (e : value) : option (Z * value) :=
  match as_index e with
  | Some i =>
      match position i (length bl) with
      | Some p => (fun v => (i, v)) <$> bl !! p
      | None => None
      end
  | None => None
  end.

(** The entry an element of a sequence document adds to the settings;
    there is none when the element denotes no element of the sequence, or
    denotes a mapping. *)
Definition sequence_entry (bl : list value) (e : value)
  : option (key * value) :=
  match denoted bl e with
  | Some (i, v) => if is_dict v then None else Some (KInt i, v)
  | None => None
  end.

(** The entries of all elements, when each of them has one. *)
Definition sequence_entries (bl : list value) : option (list (key * value)) :=
  mapM (sequence_entry bl) bl.

(** The loop of [merge_dict] over the elements [l] of the sequence [bl],
    as a function of its own. *)
Fixpoint merge_elements (bl : list value) (a : value) (l : list value)
  : result value :=
  match l with
  | [] => Ok a
  | key :: rest =>
      match as_index key with
      | None => Raise TypeError
      | Some i =>
          match position i (length bl) with
          | None => Raise IndexError
          | Some p =>
              match bl !! p with
              | Some bv =>
                  if is_dict bv then
                    match subscript a (KInt i) with
                    | Raise e => Raise e
                    | Ok av =>
                        match merge_dict av bv with
                        | Ok av' =>
                            merge_elements bl (updated a (KInt i) av') rest
                        | Raise e => Raise e
                        end
                    end
                  else
                    match store a (KInt i) bv with
                    | Ok a' => merge_elements bl a' rest
                    | Raise e => Raise e
                    end
              | None => Raise IndexError
              end
          end
      end
  end.

(** Every integer key of [ad] denotes an element of [bl] that is not a
    mapping. *)
Definition keys_denote (bl : list value) (ad : list (key * value)) : Prop :=
  ∀ i, is_Some (dict_get (KInt i) ad) →
       ∃ v, denoted bl (VInt i) = Some (i, v) ∧ is_dict v = false.

(** A truthy document that is neither a mapping nor a sequence. *)
Definition truthy_scalar (v : value) : bool :=
  truthy v && match v with VDict _ | VList _ => false | _ => true end.

End Settings.

(** ** The host: printer manager, file manager and event bus *)

Module Host.

(** Modelled from the spec: [PrinterState] is declared in
    [astroprint.plugin.printer_comms], which is not part of the sources at
    hand.  The constructors are the members the plugin uses, plus the state
    the specification calls Disconnected, which the engine is in before
    the first [connect]. *)
Inductive PrinterState :=
  | STATE_DISCONNECTED
  | STATE_CONNECTING
  | STATE_OPERATIONAL
  | STATE_PRINTING
  | STATE_PAUSED
  | STATE_CLOSED.

Inductive SystemEvent :=
  | PRINT_STARTED
  | PRINT_PAUSED
  | PRINT_RESUMED
  | PRINT_DONE
  | PRINT_FAILED.

(** [printerManager.selectedFile]: the two entries the plugin reads. *)
Record File := { filename : string; origin : string }.

(** The dictionaries passed to [fireSystemEvent]; [time] and [layerCount]
    are present for [PRINT_DONE] and [PRINT_FAILED] only. *)
Record payload := {
  p_file : string;
  p_filename : string;
  p_origin : string;
  p_time : option Z;
  p_layerCount : option Z
}.

(** What a worker thread or the plugin calls.  [changePrinterState] and
    [setTemperature] are calls of a worker into the plugin; the others go
    to the host. *)
Inductive call :=
  | changePrinterState (st : PrinterState)
  | setTemperature (type : string) (value : Z)
  | fireSystemEvent (ev : SystemEvent) (p : payload)
  | mcHeatingUpUpdate (heating : bool)
  | mcTempUpdate (tools : gmap Z (Z * Z)) (bed : option (Z * Z))
  | mcLayerChange (layer : Z)
  | mcProgress
  | mcPrintjobDone
  | printJobCancelled
  | printSucceeded (name : string) (time : Z) (layerCount : Z)
  | printFailed (name : string) (time : Z).

Definition printFileInfo (f : File) : payload :=
  {| p_file := filename f; p_filename := basename (filename f);
     p_origin := origin f; p_time := None; p_layerCount := None |}.

End Host.
Export Host.

(** ** TempsChanger: the temperature ramp thread *)

Module TempsChanger.

(** Where the thread is in [run]: at the loop test, about to run the body,
    in [time.sleep], returned, or dead with an uncaught exception. *)
Inductive pc :=
  | Loop
  | Body
  | Sleep
  | Exited
  | Crashed (e : exn).

Record t := {
  _stopped : bool;
  _targets : gmap string Z;
  _actuals : gmap string Z;
  at_pc : pc
}.

Definition with_pc (l : pc) (r : t) : t :=
  {| _stopped := _stopped r; _targets := _targets r;
     _actuals := _actuals r; at_pc := l |}.

Definition with_actuals (a : gmap string Z) (r : t) : t :=
  {| _stopped := _stopped r; _targets := _targets r;
     _actuals := a; at_pc := at_pc r |}.

(** [__init__] followed by [start()]. *)
Definition init : t :=
  {| _stopped := false; _targets := ∅; _actuals := ∅; at_pc := Loop |}.

Definition stop (r : t) : t :=
  {| _stopped := true; _targets := _targets r;
     _actuals := _actuals r; at_pc := at_pc r |}.

(** [setTarget] in its two statements, and as a whole:
    [self._targets[type] = target], then
    [if type not in self._actuals: self._actuals[type] = 0].  Nothing keeps
    the thread of the ramp from running between the two. *)
Definition setTarget_target (type : string) (target : Z) (r : t) : t :=
  {| _stopped := _stopped r; _targets := <[type := target]> (_targets r);
     _actuals := _actuals r; at_pc := at_pc r |}.

Definition setTarget_actual (type : string) (r : t) : t :=
  {| _stopped := _stopped r; _targets := _targets r;
     _actuals := match _actuals r !! type with
                 | Some _ => _actuals r
                 | None => <[type := 0%Z]> (_actuals r)
                 end;
     at_pc := at_pc r |}.

Definition setTarget (type : string) (target : Z) (r : t) : t :=
  setTarget_actual type (setTarget_target type target r).

Definition isAlive (r : t) : bool :=
  match at_pc r with Exited | Crashed _ => false | _ => true end.

(** One iteration of [for t in self._targets.keys()] in [run]. *)
Definition nudge (targets : gmap string Z) (actuals : gmap string Z)
  (t : string) : result (gmap string Z) :=
  match actuals !! t, targets !! t with
  | Some a, Some g =>
      if (a >? g)%Z then Ok (<[t := (a - 5)%Z]> actuals)
      else if (a <? g)%Z then Ok (<[t := (a + 5)%Z]> actuals)
      else Ok actuals
  | _, _ => Raise KeyError
  end.

Fixpoint nudge_keys (targets : gmap string Z) (keys : list string)
  (actuals : gmap string Z) : result (gmap string Z) :=
  match keys with
  | [] => Ok actuals
  | t :: keys' =>
      match nudge targets actuals t with
      | Ok actuals' => nudge_keys targets keys' actuals'
      | Raise e => Raise e
      end
  end.

(** The [for] loop of [run]. *)
Definition nudge_all (r : t) : result (gmap string Z) :=
  nudge_keys (_targets r) (map_to_list (_targets r)).*1 (_actuals r).

(** The actual values the loop leaves when it stops: after the last key,
    or at the key whose lookup raises (the values before it are already
    written). *)
Fixpoint nudge_keys_done (targets : gmap string Z) (keys : list string)
  (actuals : gmap string Z) : gmap string Z :=
  match keys with
  | [] => actuals
  | t :: keys' =>
      match nudge targets actuals t with
      | Ok actuals' => nudge_keys_done targets keys' actuals'
      | Raise _ => actuals
      end
  end.

Definition nudge_all_done (r : t) : gmap string Z :=
  nudge_keys_done (_targets r) (map_to_list (_targets r)).*1 (_actuals r).

Section UpdateTemps.

(** Python's [int] on a string: [None] stands for [ValueError]. *)
Variable py_int : string → option Z.

Definition startswith (s p : string) : bool := String.prefix p s.

(** [t[4:]] *)
Definition from4 (s : string) : string :=
  String.substring 4 (String.length s - 4) s.

Definition snapshot_key (r : t) (acc : gmap Z (Z * Z) * option (Z * Z))
  (t : string) : result (gmap Z (Z * Z) * option (Z * Z)) :=
  if startswith t "tool" then
    match _actuals r !! t, _targets r !! t with
    | Some a, Some g =>
        match py_int (from4 t) with
        | Some n => Ok (<[n := (a, g)]> (fst acc), snd acc)
        | None => Raise ValueError
        end
    | _, _ => Raise KeyError
    end
  else if startswith t "bed" then
    match _actuals r !! t, _targets r !! t with
    | Some a, Some g => Ok (fst acc, Some (a, g))
    | _, _ => Raise KeyError
    end
  else Ok acc.

Fixpoint snapshot_keys (r : t) (keys : list string)
  (acc : gmap Z (Z * Z) * option (Z * Z))
  : result (gmap Z (Z * Z) * option (Z * Z)) :=
  match keys with
  | [] => Ok acc
  | t :: keys' =>
      match snapshot_key r acc t with
      | Ok acc' => snapshot_keys r keys' acc'
      | Raise e => Raise e
      end
  end.

(** [_updateTemps]: the call to [mcTempUpdate] it makes.  [bed = {}] is
    [None]. *)
Definition _updateTemps (r : t) : result call :=
  match snapshot_keys r (map_to_list (_targets r)).*1 (∅, None) with
  | Ok (tools, bed) => Ok (mcTempUpdate tools bed)
  | Raise e => Raise e
  end.

(** One step of the thread running [run], with the calls it makes. *)
Definition step (r : t) : t * list call :=
  match at_pc r with
  | Loop =>
      if _stopped r then (with_pc Exited r, []) else (with_pc Body r, [])
  | Body =>
      match nudge_all r with
      | Raise e => (with_pc (Crashed e) (with_actuals (nudge_all_done r) r), [])
      | Ok actuals =>
          let r' := with_actuals actuals r in
          match _updateTemps r' with
          | Ok c => (with_pc Sleep r', [c])
          | Raise e => (with_pc (Crashed e) r', [])
          end
      end
  | Sleep => (with_pc Loop r, [])
  | Exited | Crashed _ => (r, [])
  end.

(** The operations on a ramp: the two methods other threads call, and a
    step of its own thread. *)
Inductive op :=
  | OpSetTarget (type : string) (target : Z)
  | OpStop
  | OpStep.

Definition apply (o : op) (r : t) : t :=
  match o with
  | OpSetTarget type target => setTarget type target r
  | OpStop => stop r
  | OpStep => fst (step r)
  end.

Definition run_ops (ops : list op) (r : t) : t := foldl (flip apply) r ops.

(** The same at the grain of statements: the two statements of
    [setTarget], [stop] and a step of the thread, in any order. *)
Inductive stmt :=
  | SetTargetTarget (type : string) (target : Z)
  | SetTargetActual (type : string)
  | Stop
  | Step.

Definition exec_stmt (c : stmt) (r : t) : t :=
  match c with
  | SetTargetTarget type target => setTarget_target type target r
  | SetTargetActual type => setTarget_actual type r
  | Stop => stop r
  | Step => fst (step r)
  end.

Definition run_stmts (l : list stmt) (r : t) : t := foldl (flip exec_stmt) r l.

End UpdateTemps.

(** *** Notions used to state the properties *)

(** Where one tick leaves an actual value [a] whose target is [g]. *)
Definition nudged (a g : Z) : Z :=
  if (a >? g)%Z then (a - 5)%Z else if (a <? g)%Z then (a + 5)%Z else a.

(** Every targeted channel has an actual value. *)
Definition covered (targets actuals : gmap string Z) : Prop :=
  ∀ c, is_Some (targets !! c) → is_Some (actuals !! c).

(** The invariant of a ramp. *)
Definition sound (r : t) : Prop :=
  covered (_targets r) (_actuals r) ∧ at_pc r ≠ Crashed KeyError.

End TempsChanger.

(** ** JobSimulator: the print job thread *)

Module JobSimulator.

(** Where the thread is in [run]: before [self._pausedEvent.set()], at the
    [while] test, in [self._pausedEvent.wait()], at [if self._stopped],
    before the counters are advanced, in [time.sleep], after the loop,
    returned, or dead with an uncaught exception. *)
Inductive pc :=
  | Start
  | Loop
  | Wait
  | Check
  | Tick
  | Sleep
  | Finish
  | Exited
  | Crashed (e : exn).

Record t := {
  _file : File;
  _jobLength : value;
  _stopped : bool;
  _timeElapsed : Z;
  _percentCompleted : number;
  _filePos : Z;
  _currentLayer : Z;
  _pausedEvent : bool;
  _consumedFilament : gmap Z Z;
  at_pc : pc
}.

Definition with_pc (l : pc) (j : t) : t :=
  {| _file := _file j; _jobLength := _jobLength j; _stopped := _stopped j;
     _timeElapsed := _timeElapsed j;
     _percentCompleted := _percentCompleted j; _filePos := _filePos j;
     _currentLayer := _currentLayer j; _pausedEvent := _pausedEvent j;
     _consumedFilament := _consumedFilament j; at_pc := l |}.

Definition with_stopped (b : bool) (j : t) : t :=
  {| _file := _file j; _jobLength := _jobLength j; _stopped := b;
     _timeElapsed := _timeElapsed j;
     _percentCompleted := _percentCompleted j; _filePos := _filePos j;
     _currentLayer := _currentLayer j; _pausedEvent := _pausedEvent j;
     _consumedFilament := _consumedFilament j; at_pc := at_pc j |}.

Definition with_pausedEvent (b : bool) (j : t) : t :=
  {| _file := _file j; _jobLength := _jobLength j; _stopped := _stopped j;
     _timeElapsed := _timeElapsed j;
     _percentCompleted := _percentCompleted j; _filePos := _filePos j;
     _currentLayer := _currentLayer j; _pausedEvent := b;
     _consumedFilament := _consumedFilament j; at_pc := at_pc j |}.

(** [__init__] followed by [start()]; [jobLength] is
    [plugin._settings['printJob']]. *)
Definition init (currentFile : File) (jobLength : value) : t :=
  {| _file := currentFile; _jobLength := jobLength; _stopped := false;
     _timeElapsed := 0; _percentCompleted := NInt 0; _filePos := 0;
     _currentLayer := 0; _pausedEvent := false;
     _consumedFilament := {[ 0%Z := 0%Z ]}; at_pc := Start |}.

Definition setPaused (value : bool) (j : t) : t :=
  if value then with_pausedEvent false j else with_pausedEvent true j.

(** [cancel] in its two statements, and as a whole. *)
Definition cancel_flag (j : t) : t := with_stopped true j.

Definition cancel_gate (j : t) : t :=
  if negb (_pausedEvent j) then setPaused false j else j.

Definition cancel (j : t) : t := cancel_gate (cancel_flag j).

Definition isAlive (j : t) : bool :=
  match at_pc j with Exited | Crashed _ => false | _ => true end.

Definition printTime (j : t) : Z := _timeElapsed j.
Definition progress (j : t) : number := _percentCompleted j.
Definition filePos (j : t) : Z := _filePos j.

(** The body of the loop after the stop check: the four counters, then the
    division, then the two reports.  A failing division leaves the
    counters advanced and kills the thread. *)
Definition tick (j : t) : t * list call :=
  let timeElapsed := (_timeElapsed j + 1)%Z in
  let filePos := (_filePos j + 1)%Z in
  let currentLayer := (_currentLayer j + 1)%Z in
  match _consumedFilament j !! 0%Z with
  | None =>
      ({| _file := _file j; _jobLength := _jobLength j;
          _stopped := _stopped j; _timeElapsed := timeElapsed;
          _percentCompleted := _percentCompleted j; _filePos := filePos;
          _currentLayer := currentLayer; _pausedEvent := _pausedEvent j;
          _consumedFilament := _consumedFilament j;
          at_pc := Crashed KeyError |}, [])
  | Some used =>
      let consumed := <[ 0%Z := (used + 10)%Z ]> (_consumedFilament j) in
      match div timeElapsed (_jobLength j) with
      | Raise e =>
          ({| _file := _file j; _jobLength := _jobLength j;
              _stopped := _stopped j; _timeElapsed := timeElapsed;
              _percentCompleted := _percentCompleted j; _filePos := filePos;
              _currentLayer := currentLayer; _pausedEvent := _pausedEvent j;
              _consumedFilament := consumed; at_pc := Crashed e |}, [])
      | Ok percent =>
          ({| _file := _file j; _jobLength := _jobLength j;
              _stopped := _stopped j; _timeElapsed := timeElapsed;
              _percentCompleted := percent; _filePos := filePos;
              _currentLayer := currentLayer; _pausedEvent := _pausedEvent j;
              _consumedFilament := consumed; at_pc := Sleep |},
           [mcLayerChange currentLayer; mcProgress])
      end
  end.

(** The dictionary [payload] built after the loop. *)
Definition result_payload (j : t) : payload :=
  {| p_file := filename (_file j);
     p_filename := basename (filename (_file j));
     p_origin := origin (_file j);
     p_time := Some (_timeElapsed j);
     p_layerCount := Some (_currentLayer j) |}.

(** The two branches of the final [if]. *)
Definition success_calls (j : t) : list call :=
  [ mcPrintjobDone;
    printSucceeded (basename (filename (_file j))) (_timeElapsed j)
      (_currentLayer j);
    fireSystemEvent PRINT_DONE (result_payload j) ].

Definition failure_calls (j : t) : list call :=
  [ printJobCancelled;
    fireSystemEvent PRINT_FAILED (result_payload j);
    printFailed (basename (filename (_file j))) (_timeElapsed j) ].

(** Everything [run] does after the loop. *)
Definition finish (j : t) : list call :=
  [ changePrinterState STATE_OPERATIONAL;
    setTemperature "tool0" 0; setTemperature "bed" 0 ]
  ++ (if ge_one (_percentCompleted j) then success_calls j
      else failure_calls j).

(** One step of the thread running [run], with the calls it makes.  A
    thread in [wait()] on a closed gate does not move. *)
Definition step (j : t) : t * list call :=
  match at_pc j with
  | Start => (with_pc Loop (with_pausedEvent true j), [])
  | Loop =>
      if negb (_stopped j) && lt_one (_percentCompleted j)
      then (with_pc Wait j, [])
      else (with_pc Finish j, [])
  | Wait => if _pausedEvent j then (with_pc Check j, []) else (j, [])
  | Check =>
      if _stopped j then (with_pc Finish j, []) else (with_pc Tick j, [])
  | Tick => tick j
  | Sleep => (with_pc Loop j, [])
  | Finish => (with_pc Exited j, finish j)
  | Exited | Crashed _ => (j, [])
  end.

(** A thread that cannot move now: blocked on the gate, or ended. *)
Definition blocked (j : t) : bool :=
  match at_pc j with
  | Wait => negb (_pausedEvent j)
  | _ => false
  end.

(** The job as other threads and its own thread act on it. *)
Inductive op :=
  | OpCancel
  | OpSetPaused (value : bool)
  | OpStep.

(** A job with the calls its thread has made so far. *)
Definition apply (o : op) (jc : t * list call) : t * list call :=
  match o with
  | OpCancel => (cancel (fst jc), snd jc)
  | OpSetPaused value => (setPaused value (fst jc), snd jc)
  | OpStep => let (j', cs) := step (fst jc) in (j', snd jc ++ cs)
  end.

Definition run_ops (ops : list op) (jc : t * list call) : t * list call :=
  foldl (flip apply) jc ops.

(** [n] steps of the thread alone. *)
Definition steps (n : nat) (j : t) : t := Nat.iter n (fun j => fst (step j)) j.

(** *** Notions used to state the properties *)

(** The calls that report how a job ended. *)
Definition is_outcome (c : call) : bool :=
  match c with
  | mcPrintjobDone | printSucceeded _ _ _ | fireSystemEvent PRINT_DONE _
  | printJobCancelled | printFailed _ _ | fireSystemEvent PRINT_FAILED _ => true
  | _ => false
  end.

Definition outcome (cs : list call) : list call := List.filter is_outcome cs.

(** What the thread has reported about the end of the job so far. *)
Definition reported (jc : t * list call) : Prop :=
  match at_pc (fst jc) with
  | Exited =>
      outcome (snd jc)
      = if ge_one (_percentCompleted (fst jc)) then success_calls (fst jc)
        else failure_calls (fst jc)
  | _ => outcome (snd jc) = []
  end.

(** How many steps a stopped thread with an open gate still takes. *)
Definition rank (l : pc) : nat :=
  match l with
  | Tick => 4
  | Start | Wait | Sleep => 3
  | Loop | Check => 2
  | Finish => 1
  | Exited | Crashed _ => 0
  end.

(** A stopped thread that is not about to tick cannot fail any more. *)
Definition safe (l : pc) : bool :=
  match l with Tick | Crashed _ => false | _ => true end.

End JobSimulator.

(** ** VirtualComms: the plugin and the threads it runs *)

Module VirtualComms.

(** The two functions handed to [threading.Timer]; [heatupDone] closes
    over the file selected when [startPrint] was called. *)
Inductive callback :=
  | doConnect
  | heatupDone (currentFile : File).

(** A [threading.Timer]: [finished] is its event, set by [cancel()] and at
    the end of [run]; [waiting] holds until its thread has run. *)
Record Timer := {
  interval : value;
  function : callback;
  finished : bool;
  waiting : bool
}.

(** The attributes of the plugin object.  [_state] is the state kept by
    [_changePrinterState]. *)
Record t := {
  _settings : value;
  _printing : bool;
  _heatingUp : bool;
  _heatingUpTimer : option nat;
  _printJob : option nat;
  _comm : bool;
  _preheating : bool;
  _temperatureChanger : option nat;
  _state : PrinterState
}.

(** The plugin, the host attributes it reads, the objects it has created,
    and the calls made to the host so far. *)
Record System := {
  self : t;
  shuttingDown : bool;
  selectedFile : File;
  timers : list Timer;
  ramps : list TempsChanger.t;
  jobs : list JobSimulator.t;
  trace : list call
}.

Definition with_self (p : t) (s : System) : System :=
  {| self := p; shuttingDown := shuttingDown s;
     selectedFile := selectedFile s; timers := timers s; ramps := ramps s;
     jobs := jobs s; trace := trace s |}.

Definition with_timers (l : list Timer) (s : System) : System :=
  {| self := self s; shuttingDown := shuttingDown s;
     selectedFile := selectedFile s; timers := l; ramps := ramps s;
     jobs := jobs s; trace := trace s |}.

Definition with_ramps (l : list TempsChanger.t) (s : System) : System :=
  {| self := self s; shuttingDown := shuttingDown s;
     selectedFile := selectedFile s; timers := timers s; ramps := l;
     jobs := jobs s; trace := trace s |}.

Definition with_jobs (l : list JobSimulator.t) (s : System) : System :=
  {| self := self s; shuttingDown := shuttingDown s;
     selectedFile := selectedFile s; timers := timers s; ramps := ramps s;
     jobs := l; trace := trace s |}.

Definition with_shuttingDown (b : bool) (s : System) : System :=
  {| self := self s; shuttingDown := b;
     selectedFile := selectedFile s; timers := timers s; ramps := ramps s;
     jobs := jobs s; trace := trace s |}.

Definition with_selectedFile (f : File) (s : System) : System :=
  {| self := self s; shuttingDown := shuttingDown s;
     selectedFile := f; timers := timers s; ramps := ramps s;
     jobs := jobs s; trace := trace s |}.

(** A call to the host. *)
Definition emit (c : call) (s : System) : System :=
  {| self := self s; shuttingDown := shuttingDown s;
     selectedFile := selectedFile s; timers := timers s; ramps := ramps s;
     jobs := jobs s; trace := trace s ++ [c] |}.

Definition set_state (st : PrinterState) (p : t) : t :=
  {| _settings := _settings p; _printing := _printing p;
     _heatingUp := _heatingUp p; _heatingUpTimer := _heatingUpTimer p;
     _printJob := _printJob p; _comm := _comm p;
     _preheating := _preheating p;
     _temperatureChanger := _temperatureChanger p; _state := st |}.

Definition set_comm (b : bool) (p : t) : t :=
  {| _settings := _settings p; _printing := _printing p;
     _heatingUp := _heatingUp p; _heatingUpTimer := _heatingUpTimer p;
     _printJob := _printJob p; _comm := b;
     _preheating := _preheating p;
     _temperatureChanger := _temperatureChanger p; _state := _state p |}.

Definition set_heatingUp (b : bool) (p : t) : t :=
  {| _settings := _settings p; _printing := _printing p;
     _heatingUp := b; _heatingUpTimer := _heatingUpTimer p;
     _printJob := _printJob p; _comm := _comm p;
     _preheating := _preheating p;
     _temperatureChanger := _temperatureChanger p; _state := _state p |}.

Definition set_heatingUpTimer (o : option nat) (p : t) : t :=
  {| _settings := _settings p; _printing := _printing p;
     _heatingUp := _heatingUp p; _heatingUpTimer := o;
     _printJob := _printJob p; _comm := _comm p;
     _preheating := _preheating p;
     _temperatureChanger := _temperatureChanger p; _state := _state p |}.

Definition set_printJob (o : option nat) (p : t) : t :=
  {| _settings := _settings p; _printing := _printing p;
     _heatingUp := _heatingUp p; _heatingUpTimer := _heatingUpTimer p;
     _printJob := o; _comm := _comm p;
     _preheating := _preheating p;
     _temperatureChanger := _temperatureChanger p; _state := _state p |}.

Definition set_temperatureChanger (o : option nat) (p : t) : t :=
  {| _settings := _settings p; _printing := _printing p;
     _heatingUp := _heatingUp p; _heatingUpTimer := _heatingUpTimer p;
     _printJob := _printJob p; _comm := _comm p;
     _preheating := _preheating p;
     _temperatureChanger := o; _state := _state p |}.

(** *** A state and exception monad over [System]

    A computation returns a value or raises; either way it leaves the
    system as it was when it stopped. *)
Definition M (A : Type) : Type := System → result A * System.

Definition ret {A} (a : A) : M A := fun s => (Ok a, s).
Definition raise {A} (e : exn) : M A := fun s => (Raise e, s).
Definition bind {A B} (m : M A) (k : A → M B) : M B :=
  fun s =>
    match m s with
    | (Ok a, s') => k a s'
    | (Raise e, s') => (Raise e, s')
    end.
Definition get : M System := fun s => (Ok s, s).
Definition modify (f : System → System) : M unit := fun s => (Ok tt, f s).
Definition lift {A} (r : result A) : M A := fun s => (r, s).
Definition when (b : bool) (m : M unit) : M unit := if b then m else ret tt.

Declare Scope vc_scope.
Delimit Scope vc_scope with vc.
Notation "'let*' x := m 'in' k" := (bind m (fun x => k))
  (at level 10, x name, m at level 100, k at level 200) : vc_scope.
Notation "m ;; k" := (bind m (fun _ => k))
  (at level 100, k at level 200, right associativity) : vc_scope.
Local Open Scope vc_scope.

(** [d[k]] on a Python value. *)
Definition getitem (d : value) (k : string) : result value :=
  match d with
  | VDict l =>
      match dict_get (KStr k) l with Some v => Ok v | None => Raise KeyError end
  | _ => Raise TypeError
  end.

(** *** Methods inherited from [PrinterCommsService] *)

(** Modelled from the spec: [_changePrinterState] is defined in the base
    class [PrinterCommsService], which is not part of the sources at hand.
    The engine has exactly one state at a time and every transition is a
    caller-visible event: the state is stored and the change is reported. *)
Definition _changePrinterState (st : PrinterState) : M unit :=
  modify (fun s => emit (changePrinterState st) (with_self (set_state st (self s)) s)).

(** Modelled from the spec: [isPaused] is a property of the base class;
    the engine is paused when its state is Paused. *)
Definition isPaused (s : System) : bool :=
  match _state (self s) with STATE_PAUSED => true | _ => false end.

Definition fireSystemEvent_ (ev : SystemEvent) (p : payload) : M unit :=
  modify (emit (fireSystemEvent ev p)).

(** *** The methods of the plugin *)

(** The settings file decides [self._settings]; the other attributes are
    constants. *)
Definition initPrinterCommsService (f : Settings.settings_file) : result t :=
  match Settings.load_settings f with
  | Raise e => Raise e
  | Ok settings =>
      Ok {| _settings := settings; _printing := false; _heatingUp := false;
            _heatingUpTimer := None; _printJob := None; _comm := false;
            _preheating := false; _temperatureChanger := None;
            _state := STATE_DISCONNECTED |}
  end.

Definition setTemperature_ (type : string) (value : Z) : M unit :=
  modify (fun s =>
    match _temperatureChanger (self s) with
    | Some r =>
        match ramps s !! r with
        | Some ramp =>
            with_ramps (<[r := TempsChanger.setTarget type value ramp]> (ramps s)) s
        | None => s
        end
    | None => s
    end).

(** [threading.Timer(interval, f)] followed by [start()]: the index of the
    new timer. *)
Definition start_timer (i : value) (f : callback) : M nat :=
  fun s =>
    (Ok (length (timers s)),
     with_timers (timers s ++ [{| interval := i; function := f;
                                  finished := false; waiting := true |}]) s).

Definition connect : M unit :=
  modify (fun s => with_self (set_comm true (self s)) s);;
  _changePrinterState STATE_CONNECTING;;
  let* s := get in
  let* i := lift (getitem (_settings (self s)) "connection") in
  let* _ := start_timer i doConnect in
  ret tt.

(** The body of [doConnect], run by the timer thread. *)
Definition run_doConnect : M unit :=
  let* s := get in
  when (negb (shuttingDown s))
    (_changePrinterState STATE_OPERATIONAL;;
     modify (fun s =>
       with_self (set_temperatureChanger (Some (length (ramps s))) (self s))
         (with_ramps (ramps s ++ [TempsChanger.init]) s));;
     setTemperature_ "tool0" 25;;
     setTemperature_ "bed" 25).

(** The body of [heatupDone], run by the timer thread.  Building the
    [JobSimulator] reads [plugin._settings['printJob']]. *)
Definition run_heatupDone (currentFile : File) : M unit :=
  let* s := get in
  when (negb (shuttingDown s))
    (modify (emit (mcHeatingUpUpdate false));;
     modify (fun s => with_self (set_heatingUp false (self s)) s);;
     modify (fun s => with_self (set_heatingUpTimer None (self s)) s);;
     let* s := get in
     let* jobLength := lift (getitem (_settings (self s)) "printJob") in
     modify (fun s =>
       with_self (set_printJob (Some (length (jobs s))) (self s))
         (with_jobs (jobs s ++ [JobSimulator.init currentFile jobLength]) s))).

Definition run_callback (f : callback) : M unit :=
  match f with
  | doConnect => run_doConnect
  | heatupDone currentFile => run_heatupDone currentFile
  end.

Definition set_finished (tm : Timer) : Timer :=
  {| interval := interval tm; function := function tm;
     finished := true; waiting := waiting tm |}.

Definition set_ran (tm : Timer) : Timer :=
  {| interval := interval tm; function := function tm;
     finished := finished tm; waiting := false |}.

(** [Timer.cancel()] *)
Definition cancel_timer (i : nat) : M unit :=
  modify (fun s =>
    match timers s !! i with
    | Some tm => with_timers (<[i := set_finished tm]> (timers s)) s
    | None => s
    end).

(** The thread of timer [i] wakes up: [Timer.run] calls the function
    unless the timer is finished, then sets [finished].  An exception in
    the function ends the thread before [finished] is set. *)
Definition fire (i : nat) : M unit :=
  let* s := get in
  match timers s !! i with
  | Some tm =>
      when (waiting tm)
        (modify (fun s => with_timers (<[i := set_ran tm]> (timers s)) s);;
         when (negb (finished tm))
           (run_callback (function tm);;
            cancel_timer i))
  | None => ret tt
  end.

(** One step of ramp thread [r]. *)
Section Threads.

Variable py_int : string → option Z.

Definition ramp_step (r : nat) (s : System) : System :=
  match ramps s !! r with
  | Some ramp =>
      let (ramp', cs) := TempsChanger.step py_int ramp in
      let s' := with_ramps (<[r := ramp']> (ramps s)) s in
      foldl (flip emit) s' cs
  | None => s
  end.

(** [Thread.join()] on ramp [r]: the caller waits while the thread runs.
    Once [stop()] has been called the thread returns within three steps
    ([join_exits] below), so three are enough here. *)
Fixpoint join_ramp (fuel : nat) (r : nat) (s : System) : System :=
  match fuel with
  | O => s
  | S fuel' =>
      match ramps s !! r with
      | Some ramp =>
          if TempsChanger.isAlive ramp
          then join_ramp fuel' r (ramp_step r s)
          else s
      | None => s
      end
  end.

Definition disconnect : M unit :=
  let* s := get in
  when (_comm (self s))
    (modify (fun s => with_self (set_comm false (self s)) s);;
     let* s := get in
     match _temperatureChanger (self s) with
     | Some r =>
         modify (fun s =>
           match ramps s !! r with
           | Some ramp => with_ramps (<[r := TempsChanger.stop ramp]> (ramps s)) s
           | None => s
           end);;
         modify (join_ramp 3 r);;
         modify (fun s => with_self (set_temperatureChanger None (self s)) s)
     | None => ret tt
     end;;
     _changePrinterState STATE_CLOSED).

(** [self._printJob and self._printJob.isAlive()] *)
Definition job_alive (s : System) : bool :=
  match _printJob (self s) with
  | Some i =>
      match jobs s !! i with
      | Some j => JobSimulator.isAlive j
      | None => false
      end
  | None => false
  end.

Definition startPrint : M unit :=
  let* s := get in
  if job_alive s then raise (Exception "A Print Job is still running")
  else
    _changePrinterState STATE_PRINTING;;
    let* s := get in
    let currentFile := selectedFile s in
    fireSystemEvent_ PRINT_STARTED (printFileInfo currentFile);;
    setTemperature_ "tool0" 210;;
    setTemperature_ "bed" 60;;
    modify (emit (mcHeatingUpUpdate true));;
    modify (fun s => with_self (set_heatingUp true (self s)) s);;
    modify (fun s => with_self (set_printJob None (self s)) s);;
    let* s := get in
    let* i := lift (getitem (_settings (self s)) "heatingUp") in
    let* tm := start_timer i (heatupDone currentFile) in
    modify (fun s => with_self (set_heatingUpTimer (Some tm) (self s)) s).

Definition setPaused (paused : bool) : M unit :=
  let* s := get in
  let currentFile := selectedFile s in
  (if paused then
     _changePrinterState STATE_PAUSED;;
     fireSystemEvent_ PRINT_PAUSED (printFileInfo currentFile)
   else
     _changePrinterState STATE_PRINTING;;
     fireSystemEvent_ PRINT_RESUMED (printFileInfo currentFile));;
  modify (fun s =>
    match _printJob (self s) with
    | Some i =>
        match jobs s !! i with
        | Some j => with_jobs (<[i := JobSimulator.setPaused paused j]> (jobs s)) s
        | None => s
        end
    | None => s
    end).

(** Modelled from the spec: [setPause] is a method of the base class; it
    is the pause operation of the engine, which this plugin implements as
    [setPaused]. *)
Definition setPause (paused : bool) : M unit := setPaused paused.

(** [time.sleep(1)] before the last state change is a delay of the
    calling thread only and is left out. *)
Definition executeCancelCommands (disableMotorsAndHeater : bool) : M unit :=
  modify (fun s =>
    match _printJob (self s) with
    | Some i =>
        match jobs s !! i with
        | Some j => with_jobs (<[i := JobSimulator.cancel j]> (jobs s)) s
        | None => s
        end
    | None => s
    end);;
  let* s := get in
  when (isPaused s) (setPause false);;
  let* s := get in
  match _heatingUpTimer (self s) with
  | Some tm =>
      cancel_timer tm;;
      modify (fun s => with_self (set_heatingUpTimer None (self s)) s);;
      modify (emit (mcHeatingUpUpdate false));;
      setTemperature_ "tool0" 0;;
      setTemperature_ "bed" 0;;
      _changePrinterState STATE_OPERATIONAL
  | None => ret tt
  end.

(** *** The read-only properties *)

Definition the_job (s : System) : option JobSimulator.t :=
  match _printJob (self s) with
  | Some i => jobs s !! i
  | None => None
  end.

Definition connected (s : System) : bool := _comm (self s).

Definition preHeating (s : System) : bool := _preheating (self s).

Definition printTime (s : System) : option Z :=
  match the_job s with
  | Some j => Some (JobSimulator.printTime j)
  | None => None
  end.

Definition printProgress (s : System) : option number :=
  match the_job s with
  | Some j => Some (JobSimulator.progress j)
  | None => None
  end.

Definition printFilePosition (s : System) : option Z :=
  match the_job s with
  | Some j => Some (JobSimulator.filePos j)
  | None => None
  end.

(** The dictionary of the job, or the integer [0]. *)
Definition consumedFilamentData (s : System) : gmap Z Z + Z :=
  match the_job s with
  | Some j => inl (JobSimulator._consumedFilament j)
  | None => inr 0%Z
  end.

Definition consumedFilamentSum (s : System) : Z :=
  match the_job s with
  | Some j =>
      foldr Z.add 0%Z (map_to_list (JobSimulator._consumedFilament j)).*2
  | None => 0%Z
  end.

(** *** Threads and the scheduler *)

(** A call made by a job thread: into the plugin, or out to the host. *)
Definition perform (c : call) : M unit :=
  match c with
  | changePrinterState st => _changePrinterState st
  | setTemperature type value => setTemperature_ type value
  | _ => modify (emit c)
  end.

Fixpoint perform_all (cs : list call) : M unit :=
  match cs with
  | [] => ret tt
  | c :: cs' => perform c;; perform_all cs'
  end.

(** One step of job thread [i]. *)
Definition job_step (i : nat) (s : System) : System :=
  match jobs s !! i with
  | Some j =>
      let (j', cs) := JobSimulator.step j in
      snd (perform_all cs (with_jobs (<[i := j']> (jobs s)) s))
  | None => s
  end.

(** What can happen next: a caller invokes a method, the host changes an
    attribute the plugin reads, a timer fires, or a worker thread moves. *)
Inductive action :=
  | Connect
  | Disconnect
  | StartPrint
  | ExecuteCancelCommands (disableMotorsAndHeater : bool)
  | SetPaused (paused : bool)
  | SetTemperature (type : string) (value : Z)
  | TimerFires (i : nat)
  | RampStep (r : nat)
  | JobStep (i : nat)
  | HostShutsDown
  | HostSelectsFile (f : File).

Definition run (a : action) : M unit :=
  match a with
  | Connect => connect
  | Disconnect => disconnect
  | StartPrint => startPrint
  | ExecuteCancelCommands b => executeCancelCommands b
  | SetPaused paused => setPaused paused
  | SetTemperature type value => setTemperature_ type value
  | TimerFires i => fire i
  | RampStep r => modify (ramp_step r)
  | JobStep i => modify (job_step i)
  | HostShutsDown => modify (with_shuttingDown true)
  | HostSelectsFile f => modify (with_selectedFile f)
  end.

(** The system after an action; an exception reaches the caller (or ends
    the thread) and the system stays as it was when it was raised. *)
Definition exec (a : action) (s : System) : System := snd (run a s).

Definition execs (l : list action) (s : System) : System :=
  foldl (flip exec) s l.

(** The action is the firing of a timer that runs [heatupDone]. *)
Definition fires_heatup (s : System) (a : action) : bool :=
  match a with
  | TimerFires i =>
      match timers s !! i with
      | Some tm =>
          match function tm with heatupDone _ => true | doConnect => false end
      | None => false
      end
  | _ => false
  end.

(** No action of [l], run from [s], is such a firing. *)
Fixpoint before_heatup (l : list action) (s : System) : Prop :=
  match l with
  | [] => True
  | a :: l' => fires_heatup s a = false ∧ before_heatup l' (exec a s)
  end.

End Threads.

(** The system once the plugin is initialised. *)
Definition boot (f : Settings.settings_file) (selected : File)
  : result System :=
  match initPrinterCommsService f with
  | Raise e => Raise e
  | Ok p =>
      Ok {| self := p; shuttingDown := false; selectedFile := selected;
            timers := []; ramps := []; jobs := []; trace := [] |}
  end.

(** *** Notions used to state the properties *)

(** [m] keeps [P], whether it returns or raises. *)
Definition preserves {A} (P : System → Prop) (m : M A) : Prop :=
  ∀ s, P s → P (snd (m s)).

(** [self._settings[k]] does not raise. *)
Definition has_setting (k : string) (s : System) : Prop :=
  ∃ v, getitem (_settings (self s)) k = Ok v.

(** The plugin refers to no job, and the jobs are [c]. *)
Definition no_job (c : list JobSimulator.t) (s : System) : Prop :=
  _printJob (self s) = None ∧ jobs s = c.

(** How many steps a stopped ramp thread still takes. *)
Definition ramp_rank (l : TempsChanger.pc) : nat :=
  match l with
  | TempsChanger.Body => 3
  | TempsChanger.Sleep => 2
  | TempsChanger.Loop => 1
  | _ => 0
  end.

(** Ramp [r] exists and its thread has ended. *)
Definition ramp_dead (r : nat) (s : System) : Prop :=
  ∃ ramp, ramps s !! r = Some ramp ∧ TempsChanger.isAlive ramp = false.

(** The timer the plugin refers to runs [heatupDone]. *)
Definition heatup_ref (s : System) : Prop :=
  ∀ t, _heatingUpTimer (self s) = Some t →
       ∃ tm f, timers s !! t = Some tm ∧ function tm = heatupDone f.

(** Timer [i] runs [doConnect], has not been cancelled and has not fired. *)
Definition connect_pending (i : nat) (s : System) : Prop :=
  ∃ tm, timers s !! i = Some tm ∧ function tm = doConnect
        ∧ finished tm = false ∧ waiting tm = true.

(** The event of timer [i] is set. *)
Definition timer_finished (i : nat) (s : System) : Prop :=
  ∃ tm, timers s !! i = Some tm ∧ finished tm = true.

(** What keeps the connect timer [i] pending. *)
Definition connect_safe (i : nat) (s : System) : Prop :=
  connect_pending i s ∧ heatup_ref s.

(** Once [executeCancelCommands] finds a heat-up timer, that timer is
    finished and the reference is dropped. *)
Definition heatup_cancelled (i : nat) (s : System) : Prop :=
  timer_finished i s ∧ _heatingUpTimer (self s) = None.

(** The plugin refers to heat-up timer [i]. *)
Definition heatup_held (i : nat) (s : System) : Prop :=
  heatup_ref s ∧ _heatingUpTimer (self s) = Some i.

(** A selected file and a system whose plugin has just been initialised,
    for the scenarios.  (The second branch is never taken for the settings
    files used below.) *)
Definition some_file : File := {| filename := "cube.gcode"; origin := "local" |}.

Definition fresh (f : Settings.settings_file) : System :=
  match boot f some_file with
  | Ok s => s
  | Raise _ =>
      {| self := {| _settings := VDict Settings.defaults; _printing := false;
                    _heatingUp := false; _heatingUpTimer := None;
                    _printJob := None; _comm := false; _preheating := false;
                    _temperatureChanger := None; _state := STATE_DISCONNECTED |};
         shuttingDown := false; selectedFile := some_file;
         timers := []; ramps := []; jobs := []; trace := [] |}
  end.

End VirtualComms.

(** * Properties *)

(** ** The settings *)

Module SettingsFacts.
Import Settings.

Lemma key_eqb_eq k k' : key_eqb k k' = true ↔ k = k'.
Proof.
  destruct k as [s|n], k' as [s'|n']; simpl.
  - rewrite String.eqb_eq. split; congruence.
  - split; discriminate.
  - split; discriminate.
  - rewrite Z.eqb_eq. split; congruence.
Qed.

Lemma key_eqb_refl k : key_eqb k k = true.
Proof. by apply key_eqb_eq. Qed.

Lemma key_eqb_neq k k' : k ≠ k' → key_eqb k k' = false.
Proof.
  intros H. destruct (key_eqb k k') eqn:E; [|reflexivity].
  by apply key_eqb_eq in E.
Qed.

Lemma dict_get_set {A} (k k' : key) (v : A) d :
  dict_get k (dict_set k' v d) = if key_eqb k k' then Some v else dict_get k d.
Proof.
  induction d as [|[k0 v0] d IH]; simpl.
  - destruct (key_eqb k k'); reflexivity.
  - destruct (key_eqb k' k0) eqn:E0; simpl.
    + apply key_eqb_eq in E0. subst k0.
      destruct (key_eqb k k'); reflexivity.
    + rewrite IH. destruct (key_eqb k k') eqn:E; [|reflexivity].
      apply key_eqb_eq in E. subst k'. rewrite E0. reflexivity.
Qed.

Lemma merge_dict_nil a : merge_dict a (VDict []) = Ok a.
Proof. reflexivity. Qed.

Lemma merge_dict_cons a k bv rest :
  merge_dict a (VDict ((k, bv) :: rest)) =
  if is_dict bv then
    match subscript a k with
    | Raise e => Raise e
    | Ok av =>
        match merge_dict av bv with
        | Ok av' => merge_dict (updated a k av') (VDict rest)
        | Raise e => Raise e
        end
    end
  else
    match store a k bv with
    | Ok a' => merge_dict a' (VDict rest)
    | Raise e => Raise e
    end.
Proof. destruct bv; reflexivity. Qed.

Lemma merge_dict_scalars b : ∀ ad,
  Forall (fun kv => is_dict kv.2 = false) b →
  merge_dict (VDict ad) (VDict b) = Ok (VDict (assign_all b ad)).
Proof.
  induction b as [|[k v] b IH]; intros ad Hb.
  - reflexivity.
  - inversion Hb as [|? ? Hv Hb']; subst. simpl in Hv.
    rewrite merge_dict_cons, Hv. simpl. apply IH. assumption.
Qed.

Lemma assign_all_lookup b : ∀ ad k,
  dict_get k (assign_all b ad) =
  match dict_get k (rev b) with
  | Some v => Some v
  | None => dict_get k ad
  end.
Proof.
  induction b as [|[k0 v0] b IH]; intros ad k; simpl.
  - reflexivity.
  - unfold assign_all in *. simpl. rewrite IH.
    assert (Hrev : ∀ (l : list (key * value)) kv,
      dict_get k (l ++ [kv]) =
      match dict_get k l with Some v => Some v
      | None => if key_eqb k kv.1 then Some kv.2 else None end).
    { induction l as [|[k1 v1] l IHl]; intros [k2 v2]; simpl.
      - reflexivity.
      - destruct (key_eqb k k1); [reflexivity|]. apply IHl. }
    rewrite Hrev. simpl.
    destruct (dict_get k (rev b)); [reflexivity|].
    rewrite dict_get_set. destruct (key_eqb k k0); reflexivity.
Qed.

Lemma dict_get_None {A} (k : key) (d : list (key * A)) :
  k ∉ d.*1 → dict_get k d = None.
Proof.
  induction d as [|[k0 v0] d IH]; simpl; intros Hk; [reflexivity|].
  destruct (key_eqb k k0) eqn:E.
  - apply key_eqb_eq in E. subst. exfalso. apply Hk. left.
  - apply IH. intros Hin. apply Hk. right. exact Hin.
Qed.

Lemma merge_dict_lookup b : ∀ ad r,
  NoDup b.*1 →
  merge_dict (VDict ad) (VDict b) = Ok r →
  ∃ rd, r = VDict rd ∧ ∀ k, dict_get k rd = merged_entry ad b k.
Proof.
  induction b as [|[k0 v0] b IH]; intros ad r Hnd Hm.
  - rewrite merge_dict_nil in Hm. injection Hm as <-.
    exists ad. split; [reflexivity|]. intros k. reflexivity.
  - simpl in Hnd. apply NoDup_cons in Hnd as [Hk0 Hnd].
    rewrite merge_dict_cons in Hm.
    destruct (is_dict v0) eqn:Hd.
    + simpl in Hm.
      destruct (dict_get k0 ad) as [av|] eqn:Hav; [|discriminate].
      destruct (merge_dict av v0) as [av'|] eqn:Hav'; [|discriminate].
      destruct (IH _ _ Hnd Hm) as (rd & -> & Hrd).
      exists rd. split; [reflexivity|]. intros k. rewrite Hrd.
      unfold merged_entry. simpl.
      destruct (key_eqb k k0) eqn:E.
      * apply key_eqb_eq in E. subst k.
        rewrite (dict_get_None k0 b Hk0), dict_get_set, key_eqb_refl.
        rewrite Hd, Hav, Hav'. reflexivity.
      * rewrite dict_get_set, E. reflexivity.
    + simpl in Hm. destruct (IH _ _ Hnd Hm) as (rd & -> & Hrd).
      exists rd. split; [reflexivity|]. intros k. rewrite Hrd.
      unfold merged_entry. simpl.
      destruct (key_eqb k k0) eqn:E.
      * apply key_eqb_eq in E. subst k.
        rewrite (dict_get_None k0 b Hk0), dict_get_set, key_eqb_refl.
        rewrite Hd. reflexivity.
      * rewrite dict_get_set, E. reflexivity.
Qed.

(** A non-empty mapping cannot be merged into a float. *)
Lemma merge_float_nonempty q kv bd :
  is_ok (merge_dict (VFloat q) (VDict (kv :: bd))) = false.
Proof.
  destruct kv as [k v]. rewrite merge_dict_cons.
  destruct (is_dict v); reflexivity.
Qed.

Lemma merge_dict_nested_raises b : ∀ ad k bd,
  NoDup b.*1 → (k, VDict bd) ∈ b → bd ≠ [] →
  (dict_get k ad = None ∨ ∃ q, dict_get k ad = Some (VFloat q)) →
  is_ok (merge_dict (VDict ad) (VDict b)) = false.
Proof.
  induction b as [|[k0 v0] b IH]; intros ad k bd Hnd Hin Hne Hk.
  - inversion Hin.
  - simpl in Hnd. apply NoDup_cons in Hnd as [Hk0 Hnd].
    rewrite merge_dict_cons.
    apply elem_of_cons in Hin as [Heq|Hin].
    + injection Heq as <- <-. cbn [is_dict subscript].
      destruct Hk as [->|[q ->]]; [reflexivity|].
      destruct bd as [|kv bd]; [contradiction|].
      pose proof (merge_float_nonempty q kv bd) as Hr.
      destruct (merge_dict (VFloat q) (VDict (kv :: bd)));
        [discriminate|reflexivity].
    + assert (Hkk : k ≠ k0).
      { intros ->. apply Hk0. apply list_elem_of_fmap.
        exists (k0, VDict bd). auto. }
      assert (Hframe : ∀ x,
                dict_get k (dict_set k0 x ad) = None
                ∨ ∃ q, dict_get k (dict_set k0 x ad) = Some (VFloat q)).
      { intros x. rewrite dict_get_set, (key_eqb_neq _ _ Hkk). exact Hk. }
      destruct (is_dict v0); cbn [subscript store].
      * destruct (dict_get k0 ad) as [av|]; [|reflexivity].
        destruct (merge_dict av v0) as [av'|]; [|reflexivity].
        unfold updated. cbn [store]. by apply (IH _ k bd).
      * by apply (IH _ k bd).
Qed.

Lemma merge_dict_keeps bd : ∀ ad r,
  merge_dict (VDict ad) (VDict bd) = Ok r →
  ∃ rd, r = VDict rd ∧ ∀ k, is_Some (dict_get k ad) → is_Some (dict_get k rd).
Proof.
  induction bd as [|[k0 v0] bd IH]; intros ad r Hm.
  - rewrite merge_dict_nil in Hm. simplify_eq. eauto.
  - rewrite merge_dict_cons in Hm.
    assert (Hset : ∀ x r, merge_dict (VDict (dict_set k0 x ad)) (VDict bd) = Ok r →
              ∃ rd, r = VDict rd
                    ∧ ∀ k, is_Some (dict_get k ad) → is_Some (dict_get k rd)).
    { intros x r' Hr. destruct (IH _ _ Hr) as (rd & -> & Hk).
      exists rd. split; [reflexivity|]. intros k Hs. apply Hk.
      rewrite dict_get_set. destruct (key_eqb k k0); eauto. }
    destruct (is_dict v0); simpl in Hm.
    + destruct (dict_get k0 ad); [|discriminate].
      destruct (merge_dict v v0); [|discriminate]. eapply Hset, Hm.
    + eapply Hset, Hm.
Qed.

Lemma merge_dict_list a bl : merge_dict a (VList bl) = merge_elements bl a bl.
Proof.
  cbn [merge_dict].
  set (into := (fix each (l : list value) : list (value → result value) :=
                  match l with
                  | [] => []
                  | x :: l' => (fun av => merge_dict av x) :: each l'
                  end)).
  assert (Hinto : ∀ l p,
            into l !! p = (fun x av => merge_dict av x) <$> l !! p).
  { induction l as [|x l IH]; intros [|p]; simpl; auto. }
  match goal with
  | |- ?loop a bl = _ =>
      cut (∀ l a, loop a l = merge_elements bl a l); [intros H; apply H|]
  end.
  induction l as [|e l IH]; intros a0; [reflexivity|].
  cbn [merge_elements]. destruct (as_index e) as [i|]; [|reflexivity].
  destruct (position i (length bl)) as [p|]; [|reflexivity].
  rewrite Hinto. destruct (bl !! p) as [bv|]; [|reflexivity]. simpl.
  destruct (is_dict bv).
  - destruct (subscript a0 (KInt i)) as [av|]; [|reflexivity].
    destruct (merge_dict av bv); [apply IH|reflexivity].
  - destruct (store a0 (KInt i) bv); [apply IH|reflexivity].
Qed.

Lemma denoted_as_key bl e i v :
  denoted bl e = Some (i, v) → denoted bl (VInt i) = Some (i, v).
Proof.
  unfold denoted. destruct (as_index e) as [i'|] eqn:E; [|discriminate].
  simpl. destruct (position i' (length bl)) as [p|] eqn:Ep; [|discriminate].
  destruct (bl !! p) as [x|] eqn:Ex; [|discriminate].
  simpl. intros [= <- <-]. by rewrite Ep, Ex.
Qed.

Lemma merge_elements_unfold bl a e rest :
  merge_elements bl a (e :: rest)
  = match denoted bl e with
    | Some (i, bv) =>
        if is_dict bv then
          match subscript a (KInt i) with
          | Raise e => Raise e
          | Ok av =>
              match merge_dict av bv with
              | Ok av' => merge_elements bl (updated a (KInt i) av') rest
              | Raise e => Raise e
              end
          end
        else
          match store a (KInt i) bv with
          | Ok a' => merge_elements bl a' rest
          | Raise e => Raise e
          end
    | None =>
        Raise (match as_index e with None => TypeError | Some _ => IndexError end)
    end.
Proof.
  cbn [merge_elements]. unfold denoted.
  destruct (as_index e) as [i|]; [|reflexivity].
  destruct (position i (length bl)) as [p|]; [|reflexivity].
  destruct (bl !! p); reflexivity.
Qed.

Lemma keys_denote_set bl ad i v :
  keys_denote bl ad → denoted bl (VInt i) = Some (i, v) → is_dict v = false →
  keys_denote bl (dict_set (KInt i) v ad).
Proof.
  intros Hinv Hd Hv i'. rewrite dict_get_set. simpl.
  destruct (Z.eqb_spec i' i) as [->|Hne]; [eauto|apply Hinv].
Qed.

Lemma mapM_cons {A B} (f : A → option B) x l :
  mapM f (x :: l)
  = match f x with
    | Some y =>
        match mapM f l with Some k => Some (y :: k) | None => None end
    | None => None
    end.
Proof. simpl. destruct (f x); [|reflexivity]. simpl. by destruct (mapM f l). Qed.

Lemma merge_elements_entries bl : ∀ l ad es,
  mapM (sequence_entry bl) l = Some es →
  merge_elements bl (VDict ad) l = Ok (VDict (assign_all es ad)).
Proof.
  induction l as [|e l IH]; intros ad es Hes.
  - injection Hes as <-. reflexivity.
  - rewrite mapM_cons in Hes.
    destruct (sequence_entry bl e) as [[k v]|] eqn:He; [|discriminate].
    destruct (mapM (sequence_entry bl) l) as [es'|] eqn:Hes'; [|discriminate].
    injection Hes as <-.
    rewrite merge_elements_unfold. unfold sequence_entry in He.
    destruct (denoted bl e) as [[i bv]|]; [|discriminate].
    destruct (is_dict bv); [discriminate|]. injection He as <- <-.
    cbn [store].
    change (assign_all ((KInt i, bv) :: es') ad)
      with (assign_all es' (dict_set (KInt i) bv ad)).
    by apply IH.
Qed.

Lemma merge_elements_raises bl : ∀ l ad,
  keys_denote bl ad → mapM (sequence_entry bl) l = None →
  is_ok (merge_elements bl (VDict ad) l) = false.
Proof.
  induction l as [|e l IH]; intros ad Hinv Hes; [discriminate|].
  rewrite merge_elements_unfold. rewrite mapM_cons in Hes.
  unfold sequence_entry in Hes at 1.
  destruct (denoted bl e) as [[i bv]|] eqn:Hd; [|reflexivity].
  destruct (is_dict bv) eqn:Hbv.
  - cbn [subscript]. destruct (dict_get (KInt i) ad) as [av|] eqn:Hav;
      [|reflexivity].
    destruct (Hinv i) as (v & Hv & Hnd); [by eexists|].
    rewrite (denoted_as_key _ _ _ _ Hd) in Hv. injection Hv as <-. congruence.
  - cbn [store]. apply IH.
    + apply keys_denote_set; [exact Hinv| |exact Hbv].
      by apply (denoted_as_key _ e).
    + by destruct (mapM (sequence_entry bl) l).
Qed.

Lemma keys_denote_defaults bl : keys_denote bl defaults.
Proof. intros i [v Hv]. discriminate. Qed.

Lemma defaults_floats k :
  dict_get k defaults = None ∨ ∃ q, dict_get k defaults = Some (VFloat q).
Proof.
  unfold defaults. simpl.
  repeat (destruct (key_eqb k _); [right; eauto|]). by left.
Qed.

Lemma load_settings_keeps f v :
  load_settings f = Ok v →
  ∃ d, v = VDict d
       ∧ ∀ k, is_Some (dict_get k defaults) → is_Some (dict_get k d).
Proof.
  unfold load_settings. destruct f as [| |config]; try discriminate.
  - intros [= <-]. eauto.
  - destruct (truthy config) eqn:Ht; [|intros [= <-]; eauto].
    destruct config as [| | | |s|bl|bd]; try discriminate.
    + simpl. simpl in Ht. destruct (String.eqb s ""); discriminate.
    + rewrite merge_dict_list. intros Hm.
      destruct (sequence_entries bl) as [es|] eqn:Hes.
      * rewrite (merge_elements_entries bl bl defaults es Hes) in Hm.
        injection Hm as <-. eexists. split; [reflexivity|].
        intros k [x Hx]. rewrite assign_all_lookup, Hx.
        destruct (dict_get k (rev es)); eauto.
      * pose proof (merge_elements_raises bl bl defaults
                      (keys_denote_defaults bl) Hes) as Hr.
        rewrite Hm in Hr. discriminate.
    + apply merge_dict_keeps.
Qed.

Lemma scalars_defaults : scalars defaults.
Proof. repeat constructor. Qed.

(** C8, as the code has it: without a settings file, or with an empty
    document, the settings are the defaults connection=1.0, heatingUp=2.0,
    printJob=10.0; a mapping of values that are not mappings is merged over
    the defaults key by key (a value overwrites or adds its key); whenever
    [merge_dict] succeeds on a mapping, each key holds the value of the
    document, or the recursive merge of the nested mapping into the value
    that was there, or the old value.  Nothing falls back to the defaults:
    a file that is not valid YAML, a non-empty nested mapping, and a
    non-empty scalar document make the initialisation raise.  A sequence
    document is iterated like a mapping, its elements taken as keys: when
    every element is an integer that denotes an element of the sequence
    other than a mapping, that element is stored under the integer, and
    otherwise the initialisation raises. *)
Theorem load_settings_merges :
  load_settings NoFile = Ok (VDict defaults)
  ∧ (∀ config, truthy config = false →
       load_settings (Document config) = Ok (VDict defaults))
  ∧ (∀ b, scalars b →
       ∃ s, load_settings (Document (VDict b)) = Ok (VDict s)
            ∧ ∀ k, dict_get k s =
                   match dict_get k (rev b) with
                   | Some v => Some v
                   | None => dict_get k defaults
                   end)
  ∧ (∀ ad b r, NoDup b.*1 → merge_dict (VDict ad) (VDict b) = Ok r →
       ∃ rd, r = VDict rd ∧ ∀ k, dict_get k rd = merged_entry ad b k)
  ∧ load_settings Unparsable = Raise YAMLError
  ∧ (∀ b k bd, NoDup b.*1 → (k, VDict bd) ∈ b → bd ≠ [] →
       is_ok (load_settings (Document (VDict b))) = false)
  ∧ (∀ config, truthy_scalar config = true →
       load_settings (Document config) = Raise TypeError)
  ∧ (∀ bl, bl ≠ [] →
       match sequence_entries bl with
       | Some es =>
           load_settings (Document (VList bl))
           = Ok (VDict (assign_all es defaults))
       | None => is_ok (load_settings (Document (VList bl))) = false
       end).
Proof.
  split; [reflexivity|]. split.
  { intros config Hc. unfold load_settings. rewrite Hc. reflexivity. }
  split.
  { intros b Hb. exists (assign_all b defaults). split.
    - unfold load_settings. destruct (truthy (VDict b)) eqn:Ht.
      + apply merge_dict_scalars. exact Hb.
      + destruct b; [reflexivity|discriminate].
    - intros k. apply assign_all_lookup. }
  split.
  { intros ad b r. apply merge_dict_lookup. }
  split; [reflexivity|]. split.
  { intros b k bd Hnd Hin Hne. unfold load_settings.
    destruct (truthy (VDict b)) eqn:Ht.
    - apply (merge_dict_nested_raises b defaults k bd);
        [assumption|assumption|assumption|apply defaults_floats].
    - destruct b; [inversion Hin|discriminate]. }
  split.
  { intros config Ht. unfold truthy_scalar in Ht.
    apply andb_true_iff in Ht as [Ht Hs]. unfold load_settings. rewrite Ht.
    destruct config; try discriminate; try reflexivity.
    simpl in *. destruct (String.eqb s ""); [discriminate|reflexivity]. }
  intros bl Hbl. unfold load_settings.
  assert (Ht : truthy (VList bl) = true) by (by destruct bl).
  rewrite Ht, merge_dict_list.
  destruct (sequence_entries bl) as [es|] eqn:Hes.
  - by apply merge_elements_entries.
  - apply merge_elements_raises; [apply keys_denote_defaults|exact Hes].
Qed.

Lemma load_settings_merges_witness :
  scalars [(KStr "printJob", VInt 3)]
  ∧ (∃ s, load_settings (Document (VDict [(KStr "printJob", VInt 3)]))
          = Ok (VDict s)
          ∧ dict_get (KStr "printJob") s = Some (VInt 3)
          ∧ dict_get (KStr "connection") s = Some (VFloat 1))
  ∧ load_settings (Document (VList [VInt 0]))
    = Ok (VDict (defaults ++ [(KInt 0, VInt 0)])).
Proof.
  assert (Hb : scalars [(KStr "printJob", VInt 3)]) by (repeat constructor).
  split; [exact Hb|].
  destruct load_settings_merges as (_ & _ & H & _ & _ & _ & _ & Hl).
  split.
  - destruct (H [(KStr "printJob", VInt 3)] Hb) as (s & Hs & Hk).
    exists s. split; [exact Hs|]. split; rewrite Hk; reflexivity.
  - assert (Hne : [VInt 0] ≠ []) by discriminate.
    exact (Hl [VInt 0] Hne).
Defined.

(** C8 (as the specification has it) fails: a file that is not valid
    YAML, and a document with a nested mapping, do not fall back to the
    defaults; the initialisation raises. *)
Lemma malformed_settings_raise :
  load_settings Unparsable = Raise YAMLError
  ∧ load_settings
      (Document (VDict [(KStr "connection",
                         VDict [(KStr "seconds", VInt 3)])]))
    = Raise TypeError
  ∧ load_settings (Document (VDict [(KStr "extra", VDict [(KStr "a", VInt 1)])]))
    = Raise KeyError
  ∧ load_settings (Document (VStr "fast")) = Raise TypeError.
Proof. repeat split; reflexivity. Qed.

End SettingsFacts.

(** ** The temperature ramp *)

Module TempsChangerFacts.
Import TempsChanger.

Lemma nudge_spec targets actuals t a g :
  actuals !! t = Some a → targets !! t = Some g →
  ∃ actuals', nudge targets actuals t = Ok actuals'
    ∧ actuals' !! t = Some (nudged a g)
    ∧ ∀ c, c ≠ t → actuals' !! c = actuals !! c.
Proof.
  intros Ha Hg. unfold nudge, nudged. rewrite Ha, Hg.
  destruct (a >? g)%Z; [|destruct (a <? g)%Z]; eexists; split; try reflexivity.
  - split; [apply lookup_insert_eq|]. intros c Hc. by apply lookup_insert_ne.
  - split; [apply lookup_insert_eq|]. intros c Hc. by apply lookup_insert_ne.
  - split; [exact Ha|]. reflexivity.
Qed.

Lemma nudge_keys_spec targets keys : ∀ actuals,
  NoDup keys →
  (∀ t, t ∈ keys → is_Some (targets !! t) ∧ is_Some (actuals !! t)) →
  ∃ actuals', nudge_keys targets keys actuals = Ok actuals'
    ∧ (∀ c a g, c ∈ keys → actuals !! c = Some a → targets !! c = Some g →
         actuals' !! c = Some (nudged a g))
    ∧ (∀ c, c ∉ keys → actuals' !! c = actuals !! c).
Proof.
  induction keys as [|t keys IH]; intros actuals Hnd Hk.
  - exists actuals. split; [reflexivity|]. split; [|reflexivity].
    intros c a g Hc. inversion Hc.
  - apply NoDup_cons in Hnd as [Ht Hnd].
    destruct (Hk t) as [[g Hg] [a Ha]]; [left|].
    destruct (nudge_spec _ _ _ _ _ Ha Hg) as (act1 & H1 & H1t & H1o).
    destruct (IH act1 Hnd) as (act2 & H2 & H2in & H2out).
    { intros t' Ht'. destruct (Hk t') as [Hg' Ha']; [by right|].
      split; [exact Hg'|]. rewrite H1o; [exact Ha'|]. intros ->. contradiction. }
    exists act2. simpl. rewrite H1. split; [exact H2|]. split.
    + intros c a' g' Hc Ha' Hg'. apply elem_of_cons in Hc as [->|Hc].
      * rewrite H2out by exact Ht. rewrite H1t. congruence.
      * apply H2in; [exact Hc| |exact Hg'].
        rewrite H1o; [exact Ha'|]. intros ->. contradiction.
    + intros c Hc. apply not_elem_of_cons in Hc as [Hct Hc].
      rewrite H2out by exact Hc. apply H1o. exact Hct.
Qed.

Lemma elem_of_keys (m : gmap string Z) c :
  c ∈ (map_to_list m).*1 ↔ is_Some (m !! c).
Proof.
  rewrite list_elem_of_fmap. split.
  - intros ([k v] & -> & Hin). apply elem_of_map_to_list in Hin. eauto.
  - intros [v Hv]. exists (c, v). split; [reflexivity|].
    by apply elem_of_map_to_list.
Qed.

Lemma nudge_all_spec r :
  covered (_targets r) (_actuals r) →
  ∃ actuals', nudge_all r = Ok actuals'
    ∧ (∀ c a g, _actuals r !! c = Some a → _targets r !! c = Some g →
         actuals' !! c = Some (nudged a g))
    ∧ (∀ c, _targets r !! c = None → actuals' !! c = _actuals r !! c).
Proof.
  intros Hcov. unfold nudge_all.
  destruct (nudge_keys_spec (_targets r) (map_to_list (_targets r)).*1 (_actuals r))
    as (acts & H & Hin & Hout).
  - apply NoDup_fst_map_to_list.
  - intros t Ht. apply elem_of_keys in Ht. split; [exact Ht|]. by apply Hcov.
  - exists acts. split; [exact H|]. split.
    + intros c a g Ha Hg. apply (Hin c a g); [|exact Ha|exact Hg].
      apply elem_of_keys. eauto.
    + intros c Hc. apply Hout. rewrite elem_of_keys, Hc. by intros [? ?].
Qed.

Lemma nudge_all_covered r actuals' :
  covered (_targets r) (_actuals r) → nudge_all r = Ok actuals' →
  covered (_targets r) actuals'.
Proof.
  intros Hcov Hn c [g Hg].
  destruct (nudge_all_spec r Hcov) as (acts & H & Hin & _).
  rewrite H in Hn. injection Hn as <-.
  destruct (Hcov c) as [a Ha]; [eauto|].
  rewrite (Hin c a g Ha Hg). eauto.
Qed.

Section WithInt.
Variable py_int : string → option Z.

Lemma snapshot_keys_no_KeyError r keys : ∀ acc,
  (∀ t, t ∈ keys → is_Some (_targets r !! t) ∧ is_Some (_actuals r !! t)) →
  snapshot_keys py_int r keys acc ≠ Raise KeyError.
Proof.
  induction keys as [|t keys IH]; intros acc Hk; simpl; [discriminate|].
  destruct (Hk t) as [[g Hg] [a Ha]]; [left|].
  assert (Hrest : ∀ t', t' ∈ keys →
            is_Some (_targets r !! t') ∧ is_Some (_actuals r !! t')).
  { intros t' Ht'. apply Hk. by right. }
  unfold snapshot_key. rewrite Ha, Hg.
  destruct (startswith t "tool").
  - destruct (py_int (from4 t)); [apply IH; exact Hrest|discriminate].
  - destruct (startswith t "bed"); apply IH; exact Hrest.
Qed.

Lemma updateTemps_no_KeyError r :
  covered (_targets r) (_actuals r) → _updateTemps py_int r ≠ Raise KeyError.
Proof.
  intros Hcov. unfold _updateTemps.
  pose proof (snapshot_keys_no_KeyError r (map_to_list (_targets r)).*1 (∅, None)) as H.
  destruct (snapshot_keys py_int r (map_to_list (_targets r)).*1 (∅, None)) as [[tools bed]|e].
  - discriminate.
  - intros [= ->]. apply H; [|reflexivity].
    intros t Ht. apply elem_of_keys in Ht. split; [exact Ht|]. by apply Hcov.
Qed.

Lemma sound_init : sound init.
Proof. split; [|discriminate]. intros c [g Hg]. simpl in Hg. by rewrite lookup_empty in Hg. Qed.

Lemma sound_setTarget type target r : sound r → sound (setTarget type target r).
Proof.
  intros [Hcov Hpc]. split; [|exact Hpc]. intros c. simpl.
  destruct (decide (c = type)) as [->|Hne].
  - intros _. destruct (_actuals r !! type) eqn:E; [rewrite E; eauto|].
    rewrite lookup_insert_eq. eauto.
  - rewrite lookup_insert_ne by congruence. intros Hc.
    destruct (_actuals r !! type); [by apply Hcov|].
    rewrite lookup_insert_ne by congruence. by apply Hcov.
Qed.

Lemma sound_stop r : sound r → sound (stop r).
Proof. intros [Hcov Hpc]. split; assumption. Qed.

Lemma step_targets r : _targets (fst (step py_int r)) = _targets r.
Proof.
  unfold step. destruct (at_pc r); simpl; try reflexivity.
  - destruct (_stopped r); reflexivity.
  - destruct (nudge_all r); [|reflexivity].
    destruct (_updateTemps py_int _); reflexivity.
Qed.

Lemma sound_step r : sound r → sound (fst (step py_int r)).
Proof.
  intros [Hcov Hpc]. unfold step. destruct (at_pc r) eqn:E; simpl.
  - destruct (_stopped r); (split; [exact Hcov|discriminate]).
  - destruct (nudge_all_spec r Hcov) as (acts & H & _).
    rewrite H.
    pose proof (nudge_all_covered r acts Hcov H) as Hcov'.
    pose proof (updateTemps_no_KeyError (with_actuals acts r) Hcov') as Hu.
    destruct (_updateTemps py_int (with_actuals acts r)); simpl.
    + split; [exact Hcov'|discriminate].
    + split; [exact Hcov'|]. intros [= ->]. by apply Hu.
  - split; [exact Hcov|discriminate].
  - split; [exact Hcov|congruence].
  - split; [exact Hcov|congruence].
Qed.

Lemma sound_run_ops ops : ∀ r, sound r → sound (run_ops py_int ops r).
Proof.
  induction ops as [|o ops IH]; intros r Hr; [exact Hr|].
  simpl. apply IH. destruct o; simpl.
  - by apply sound_setTarget.
  - by apply sound_stop.
  - by apply sound_step.
Qed.

Lemma step_actual r c a g :
  sound r → _actuals r !! c = Some a → _targets r !! c = Some g →
  _actuals (fst (step py_int r)) !! c
  = Some (match at_pc r with Body => nudged a g | _ => a end).
Proof.
  intros [Hcov _] Ha Hg. unfold step. destruct (at_pc r); simpl; try exact Ha.
  - destruct (_stopped r); exact Ha.
  - destruct (nudge_all_spec r Hcov) as (acts & H & Hin & _). rewrite H.
    destruct (_updateTemps py_int (with_actuals acts r)); simpl; by apply Hin.
Qed.

Lemma nudged_eq g : nudged g g = g.
Proof. unfold nudged. rewrite Z.gtb_ltb, Z.ltb_irrefl. reflexivity. Qed.

Lemma steps_at_equilibrium n : ∀ r c g,
  sound r → _actuals r !! c = Some g → _targets r !! c = Some g →
  _actuals (Nat.iter n (fun r => fst (step py_int r)) r) !! c = Some g
  ∧ _targets (Nat.iter n (fun r => fst (step py_int r)) r) !! c = Some g
  ∧ sound (Nat.iter n (fun r => fst (step py_int r)) r).
Proof.
  induction n as [|n IH]; intros r c g Hs Ha Hg; [simpl; auto|].
  simpl. destruct (IH r c g Hs Ha Hg) as (Ha' & Hg' & Hs').
  split; [|split].
  - rewrite (step_actual _ c g g Hs' Ha' Hg'). rewrite nudged_eq.
    by destruct (at_pc _).
  - by rewrite step_targets.
  - by apply sound_step.
Qed.

End WithInt.

(** C5: after any sequence of operations on a ramp, for a channel whose
    target is [g] and whose actual value is [a], the loop of one tick
    succeeds and leaves the actual value at [a - 5] if [a > g], at [a + 5]
    if [a < g] and at [a] otherwise, and so does the step of the thread that
    runs the loop; when [a = g] the actual value is still [g] after any
    number of steps of the thread. *)
Theorem tick_moves_actual_toward_target (py_int : string → option Z)
  (ops : list op) (c : string) (a g : Z) :
  let r := run_ops py_int ops init in
  _actuals r !! c = Some a →
  _targets r !! c = Some g →
  (∃ actuals', nudge_all r = Ok actuals'
     ∧ actuals' !! c
       = Some (if (a >? g)%Z then (a - 5)%Z
               else if (a <? g)%Z then (a + 5)%Z else a))
  ∧ (at_pc r = Body →
       _actuals (fst (step py_int r)) !! c
       = Some (if (a >? g)%Z then (a - 5)%Z
               else if (a <? g)%Z then (a + 5)%Z else a))
  ∧ (a = g → ∀ n,
       _actuals (Nat.iter n (fun r => fst (step py_int r)) r) !! c = Some g).
Proof.
  intros r Ha Hg.
  assert (Hs : sound r) by (apply sound_run_ops, sound_init).
  split; [|split].
  - destruct (nudge_all_spec r (proj1 Hs)) as (acts & H & Hin & _).
    exists acts. split; [exact H|]. by apply Hin.
  - intros Hpc. rewrite (step_actual py_int r c a g Hs Ha Hg), Hpc. reflexivity.
  - intros -> n. by apply steps_at_equilibrium.
Qed.

Lemma tick_moves_actual_toward_target_witness :
  let r := run_ops (fun _ => None) [OpSetTarget "tool0" 25%Z; OpStep] init in
  _actuals r !! "tool0" = Some 0%Z
  ∧ _targets r !! "tool0" = Some 25%Z
  ∧ at_pc r = Body
  ∧ _actuals (fst (step (fun _ => None) r)) !! "tool0" = Some 5%Z.
Proof.
  cbv zeta.
  assert (Ha : _actuals (run_ops (fun _ => None)
                 [OpSetTarget "tool0" 25%Z; OpStep] init) !! "tool0" = Some 0%Z)
    by (vm_compute; reflexivity).
  assert (Hg : _targets (run_ops (fun _ => None)
                 [OpSetTarget "tool0" 25%Z; OpStep] init) !! "tool0" = Some 25%Z)
    by (vm_compute; reflexivity).
  split; [exact Ha|]. split; [exact Hg|]. split; [reflexivity|].
  apply (tick_moves_actual_toward_target (fun _ => None)
           [OpSetTarget "tool0" 25%Z; OpStep] "tool0" 0%Z 25%Z Ha Hg).
  reflexivity.
Defined.

(** Whole calls of [setTarget] keep every targeted channel covered:
    [setTarget] records the target and gives a channel without an actual
    value the actual value 0, leaving an existing one as it is. *)
Lemma whole_calls_keep_targets_covered (py_int : string → option Z)
  (ops : list op) :
  let r := run_ops py_int ops init in
  covered (_targets r) (_actuals r)
  ∧ ∀ type target,
      _targets (setTarget type target r) !! type = Some target
      ∧ _actuals (setTarget type target r) !! type
        = Some (default 0%Z (_actuals r !! type)).
Proof.
  intros r.
  assert (Hs : sound r) by (apply sound_run_ops, sound_init).
  split; [exact (proj1 Hs)|].
  intros type target. simpl. split; [apply lookup_insert_eq|].
  destruct (_actuals r !! type) eqn:E; simpl; [exact E|apply lookup_insert_eq].
Qed.

Lemma nudge_keeps_missing targets actuals t actuals' c :
  nudge targets actuals t = Ok actuals' → actuals !! c = None →
  actuals' !! c = None.
Proof.
  unfold nudge. intros H Hc.
  destruct (actuals !! t) as [a|] eqn:Ha; [|discriminate].
  destruct (targets !! t) as [g|]; [|discriminate].
  assert (Hne : t ≠ c) by congruence.
  destruct (a >? g)%Z; [|destruct (a <? g)%Z]; injection H as <-;
    rewrite ?lookup_insert_ne by exact Hne; exact Hc.
Qed.

Lemma nudge_raises_KeyError targets actuals t e :
  nudge targets actuals t = Raise e → e = KeyError.
Proof.
  unfold nudge. destruct (actuals !! t) as [a|]; [|congruence].
  destruct (targets !! t) as [g|]; [|congruence].
  destruct (a >? g)%Z; [|destruct (a <? g)%Z]; discriminate.
Qed.

(** The loop of the tick raises [KeyError] when a key it runs over has no
    actual value. *)
Lemma nudge_keys_KeyError targets keys c : ∀ actuals,
  c ∈ keys → actuals !! c = None →
  nudge_keys targets keys actuals = Raise KeyError.
Proof.
  induction keys as [|t keys IH]; intros actuals Hin Hc; [inversion Hin|].
  simpl. destruct (nudge targets actuals t) as [actuals'|e] eqn:Hn.
  - apply elem_of_cons in Hin as [->|Hin].
    + unfold nudge in Hn. rewrite Hc in Hn. discriminate.
    + apply IH; [exact Hin|]. by apply (nudge_keeps_missing _ _ _ _ _ Hn).
  - by rewrite (nudge_raises_KeyError _ _ _ _ Hn).
Qed.

(** C9 fails on the code: [setTarget] writes the target before it creates
    the actual value, and nothing keeps the thread of the ramp from
    running in between.  For a channel that has no actual value yet, after
    the first statement of [setTarget] the channel has a target and no
    actual value; a tick of the thread that runs there misses the lookup
    [self._actuals[t]], the thread dies of [KeyError] and reports nothing.
    (Once the second statement has run the channel has both.) *)
Theorem tick_inside_setTarget_raises_KeyError (py_int : string → option Z)
  (r : t) (type : string) (target : Z) :
  at_pc r = Body →
  _actuals r !! type = None →
  let r1 := setTarget_target type target r in
  let r2 := fst (step py_int r1) in
  _targets r1 !! type = Some target
  ∧ _actuals r1 !! type = None
  ∧ nudge_all r1 = Raise KeyError
  ∧ at_pc r2 = Crashed KeyError
  ∧ isAlive r2 = false
  ∧ snd (step py_int r1) = []
  ∧ is_Some (_actuals (setTarget_actual type r1) !! type).
Proof.
  intros Hpc Ha r1 r2.
  assert (Ht : _targets r1 !! type = Some target) by apply lookup_insert_eq.
  assert (Hn : nudge_all r1 = Raise KeyError).
  { unfold nudge_all. apply (nudge_keys_KeyError _ _ type); [|exact Ha].
    apply elem_of_keys. by eexists. }
  assert (Hstep : step py_int r1
                  = (with_pc (Crashed KeyError)
                       (with_actuals (nudge_all_done r1) r1), [])).
  { unfold step. change (at_pc r1) with (at_pc r). by rewrite Hpc, Hn. }
  unfold r2. rewrite Hstep.
  assert (H2 : is_Some (_actuals (setTarget_actual type r1) !! type)).
  { simpl. rewrite Ha, lookup_insert_eq. by eexists. }
  split; [exact Ht|]. split; [exact Ha|]. split; [exact Hn|].
  split; [reflexivity|]. split; [reflexivity|]. split; [reflexivity|exact H2].
Qed.

Lemma tick_inside_setTarget_raises_KeyError_witness :
  let py_int := fun s : string => if String.eqb s "0" then Some 0%Z else None in
  let r := run_stmts py_int [Step] init in
  at_pc r = Body
  ∧ _actuals r !! "tool0" = None
  ∧ at_pc (run_stmts py_int [Step; SetTargetTarget "tool0" 25%Z; Step] init)
    = Crashed KeyError
  ∧ at_pc (run_stmts py_int
             [Step; SetTargetTarget "tool0" 25%Z; SetTargetActual "tool0"; Step]
             init)
    = Sleep.
Proof.
  cbv zeta.
  pose (py_int := fun s : string => if String.eqb s "0" then Some 0%Z else None).
  assert (Hpc : at_pc (run_stmts py_int [Step] init) = Body) by reflexivity.
  assert (Ha : _actuals (run_stmts py_int [Step] init) !! "tool0" = None)
    by reflexivity.
  split; [exact Hpc|]. split; [exact Ha|]. split.
  - exact (proj1 (proj2 (proj2 (proj2
       (tick_inside_setTarget_raises_KeyError py_int
          (run_stmts py_int [Step] init) "tool0" 25%Z Hpc Ha))))).
  - vm_compute. reflexivity.
Defined.

End TempsChangerFacts.

(** ** The print job *)

Module JobSimulatorFacts.
Import JobSimulator.

Lemma outcome_app cs cs' : outcome (cs ++ cs') = outcome cs ++ outcome cs'.
Proof. apply List.filter_app. Qed.

Lemma outcome_finish j :
  outcome (finish j)
  = if ge_one (_percentCompleted j) then success_calls j else failure_calls j.
Proof. unfold finish. destruct (ge_one _); reflexivity. Qed.

Lemma tick_cases j :
  (∃ e, at_pc (fst (tick j)) = Crashed e ∧ snd (tick j) = [])
  ∨ (at_pc (fst (tick j)) = Sleep
     ∧ snd (tick j) = [mcLayerChange (_currentLayer j + 1); mcProgress]).
Proof.
  unfold tick. destruct (_consumedFilament j !! 0%Z); [|left; eauto].
  destruct (div _ _); [right; auto|left; eauto].
Qed.

Lemma reported_step j cs :
  reported (j, cs) → reported (apply OpStep (j, cs)).
Proof.
  unfold reported, apply, step. simpl.
  destruct (at_pc j) eqn:E; simpl; intros H.
  - rewrite app_nil_r. exact H.
  - destruct (negb (_stopped j) && lt_one (_percentCompleted j));
      simpl; rewrite app_nil_r; exact H.
  - destruct (_pausedEvent j); simpl; rewrite app_nil_r, ?E; exact H.
  - destruct (_stopped j); simpl; rewrite app_nil_r; exact H.
  - destruct (tick j) as [j' cs'] eqn:Et.
    destruct (tick_cases j) as [(e & Hpc & Hcs)|[Hpc Hcs]];
      rewrite Et in Hpc, Hcs; simpl in *; subst cs'; rewrite Hpc.
    + rewrite app_nil_r. exact H.
    + rewrite outcome_app, H. reflexivity.
  - rewrite app_nil_r. exact H.
  - rewrite outcome_app, H, outcome_finish. reflexivity.
  - rewrite E, app_nil_r. exact H.
  - rewrite E, app_nil_r. exact H.
Qed.

Lemma reported_run ops : ∀ jc, reported jc → reported (run_ops ops jc).
Proof.
  induction ops as [|o ops IH]; intros [j cs] H; [exact H|].
  simpl. apply IH. destruct o as [|paused|].
  - unfold reported, apply, cancel, cancel_gate, cancel_flag, setPaused in *.
    simpl in *. destruct (negb (_pausedEvent j)); exact H.
  - unfold reported, apply, setPaused in *. simpl in *.
    destruct paused; exact H.
  - apply reported_step. exact H.
Qed.

(** C3: however cancelling, pausing, resuming and the steps of the thread
    are interleaved, once [run] has returned the calls that report the end
    of the job are exactly those of the success branch (when the completion
    is at least 1) or exactly those of the failure branch (otherwise), and
    before [run] has returned there is no such call. *)
Theorem exactly_one_outcome (currentFile : File) (jobLength : value)
  (ops : list op) :
  let jc := run_ops ops (init currentFile jobLength, []) in
  (at_pc (fst jc) = Exited →
     (ge_one (_percentCompleted (fst jc)) = true
      ∧ outcome (snd jc) = success_calls (fst jc))
     ∨ (ge_one (_percentCompleted (fst jc)) = false
        ∧ outcome (snd jc) = failure_calls (fst jc)))
  ∧ (at_pc (fst jc) ≠ Exited → outcome (snd jc) = []).
Proof.
  intros jc.
  assert (H : reported jc) by (apply reported_run; reflexivity).
  unfold reported in H. split.
  - intros Hpc. rewrite Hpc in H.
    destruct (ge_one _); [left|right]; split; auto.
  - intros Hpc. destruct (at_pc (fst jc)); try exact H. contradiction.
Qed.

Lemma exactly_one_outcome_witness :
  let f := {| filename := "cube.gcode"; origin := "local" |} in
  let jc := run_ops (repeat OpStep 18) (init f (VInt 3), []) in
  at_pc (fst jc) = Exited
  ∧ ((ge_one (_percentCompleted (fst jc)) = true
      ∧ outcome (snd jc) = success_calls (fst jc))
     ∨ (ge_one (_percentCompleted (fst jc)) = false
        ∧ outcome (snd jc) = failure_calls (fst jc))).
Proof.
  cbv zeta.
  assert (He : at_pc (fst (run_ops (repeat OpStep 18)
                 (init {| filename := "cube.gcode"; origin := "local" |} (VInt 3),
                  []))) = Exited) by (vm_compute; reflexivity).
  split; [exact He|].
  exact (proj1 (exactly_one_outcome
                  {| filename := "cube.gcode"; origin := "local" |} (VInt 3)
                  (repeat OpStep 18)) He).
Defined.

(** Once the stop flag is set it stays set, and an open gate stays open,
    while only the thread moves. *)
Lemma step_stopped j : _stopped (fst (step j)) = _stopped j.
Proof.
  unfold step, tick. destruct (at_pc j); simpl; try reflexivity;
    repeat case_match; simpl; congruence.
Qed.

Lemma step_gate j :
  _pausedEvent j = true → _pausedEvent (fst (step j)) = true.
Proof.
  intros H. unfold step, tick. destruct (at_pc j); simpl; try exact H;
    repeat case_match; simpl in *; congruence.
Qed.

Lemma steps_stopped n j : _stopped (steps n j) = _stopped j.
Proof.
  induction n as [|n IH]; [reflexivity|].
  unfold steps in *. simpl. rewrite step_stopped. exact IH.
Qed.

Lemma steps_S n j : steps (S n) j = steps n (fst (step j)).
Proof. unfold steps. rewrite Nat.iter_succ_r. reflexivity. Qed.

Lemma tick_pc j : rank (at_pc (fst (tick j))) ≤ 3.
Proof.
  destruct (tick_cases j) as [(e & -> & _)|[-> _]]; simpl; lia.
Qed.

Lemma stopped_step_rank j :
  _stopped j = true → _pausedEvent j = true →
  rank (at_pc (fst (step j))) ≤ pred (rank (at_pc j)).
Proof.
  intros Hs Hg. unfold step. rewrite Hs, Hg.
  destruct (at_pc j) eqn:E; simpl; rewrite ?E; simpl; try lia.
  apply tick_pc.
Qed.

Lemma stopped_steps_rank n : ∀ j,
  _stopped j = true → _pausedEvent j = true →
  rank (at_pc (steps n j)) ≤ rank (at_pc j) - n.
Proof.
  induction n as [|n IH]; intros j Hs Hg; [simpl; lia|].
  rewrite steps_S.
  pose proof (stopped_step_rank j Hs Hg) as H1.
  pose proof (IH (fst (step j))) as H2.
  rewrite step_stopped in H2. specialize (H2 Hs (step_gate j Hg)). lia.
Qed.

Lemma stopped_step_safe j :
  _stopped j = true → safe (at_pc j) = true → safe (at_pc (fst (step j))) = true.
Proof.
  intros Hs. unfold step. rewrite Hs.
  destruct (at_pc j) eqn:E; simpl; try discriminate; rewrite ?E; auto.
  destruct (_pausedEvent j); simpl; rewrite ?E; reflexivity.
Qed.

Lemma stopped_steps_safe n : ∀ j,
  _stopped j = true → safe (at_pc j) = true → safe (at_pc (steps n j)) = true.
Proof.
  induction n as [|n IH]; intros j Hs Hsafe; [exact Hsafe|].
  rewrite steps_S. apply IH; [by rewrite step_stopped|].
  by apply stopped_step_safe.
Qed.

(** With the stop flag set and the gate open the thread ends within four
    steps. *)
Lemma stopped_ends j :
  _stopped j = true → _pausedEvent j = true →
  isAlive (steps 4 j) = false
  ∧ (safe (at_pc j) = true → at_pc (steps 4 j) = Exited).
Proof.
  intros Hs Hg.
  pose proof (stopped_steps_rank 4 j Hs Hg) as Hr.
  pose proof (stopped_steps_safe 4 j Hs) as Hsafe.
  assert (Hj : rank (at_pc j) ≤ 4) by (destruct (at_pc j); simpl; lia).
  unfold isAlive. destruct (at_pc (steps 4 j)); simpl in *; try lia.
  - split; [reflexivity|reflexivity].
  - split; [reflexivity|]. intros H. specialize (Hsafe H). discriminate.
Qed.

Lemma cancel_gate_flags j :
  _stopped (cancel_gate j) = _stopped j ∧ _pausedEvent (cancel_gate j) = true
  ∧ at_pc (cancel_gate j) = at_pc j
  ∧ _timeElapsed (cancel_gate j) = _timeElapsed j.
Proof.
  unfold cancel_gate, setPaused.
  destruct (_pausedEvent j) eqn:E; simpl; auto.
Qed.

(** The counters of a stopped thread that is not about to tick stay put. *)
Lemma stopped_step_time j :
  _stopped j = true → safe (at_pc j) = true →
  _timeElapsed (fst (step j)) = _timeElapsed j.
Proof.
  intros Hs. unfold step. rewrite Hs.
  destruct (at_pc j); simpl; try discriminate; auto.
  destruct (_pausedEvent j); reflexivity.
Qed.

Lemma stopped_steps_time n : ∀ j,
  _stopped j = true → safe (at_pc j) = true →
  _timeElapsed (steps n j) = _timeElapsed j.
Proof.
  induction n as [|n IH]; intros j Hs Hsafe; [reflexivity|].
  rewrite steps_S, IH.
  - by apply stopped_step_time.
  - by rewrite step_stopped.
  - by apply stopped_step_safe.
Qed.

(** C4: for every state of a job, and however many steps its thread
    takes between the two statements of [cancel], after [cancel] the stop
    flag is set and the gate is open, and the thread has ended within four
    more steps; it has returned from [run] unless it was already dead or
    about to advance the counters.  A thread blocked on the closed gate does
    not move before [cancel], moves after it, and returns without advancing
    the elapsed time. *)
Theorem cancel_ends_the_loop (j : t) (n : nat) :
  _stopped (cancel j) = true
  ∧ _pausedEvent (cancel j) = true
  ∧ isAlive (steps 4 (cancel_gate (steps n (cancel_flag j)))) = false
  ∧ (safe (at_pc j) = true → at_pc (steps 4 (cancel j)) = Exited)
  ∧ (blocked j = true → fst (step j) = j ∧ blocked (cancel j) = false)
  ∧ (at_pc j = Wait →
       at_pc (steps 4 (cancel j)) = Exited
       ∧ ∀ k, _timeElapsed (steps k (cancel j)) = _timeElapsed j).
Proof.
  assert (Hflag : _stopped (cancel_flag j) = true) by reflexivity.
  destruct (cancel_gate_flags (cancel_flag j)) as (Hs & Hg & Hpc & Ht).
  fold (cancel j) in Hs, Hg, Hpc, Ht. simpl in Hs, Hpc, Ht.
  split; [exact Hs|]. split; [exact Hg|]. split; [|split; [|split]].
  - apply stopped_ends.
    + rewrite (proj1 (cancel_gate_flags _)), steps_stopped. reflexivity.
    + apply cancel_gate_flags.
  - intros Hsafe. apply stopped_ends; [exact Hs|exact Hg|by rewrite Hpc].
  - unfold blocked, step. rewrite Hpc, Hg.
    destruct (at_pc j); try discriminate.
    destruct (_pausedEvent j); [discriminate|]. auto.
  - intros Hw.
    assert (Hsafe : safe (at_pc (cancel j)) = true) by (rewrite Hpc, Hw; reflexivity).
    split.
    + by apply stopped_ends.
    + intros k. rewrite stopped_steps_time; auto.
Qed.

Lemma cancel_ends_the_loop_witness :
  let j := with_pc Wait
             (init {| filename := "cube.gcode"; origin := "local" |} (VInt 3)) in
  at_pc j = Wait
  ∧ blocked j = true
  ∧ at_pc (steps 4 (cancel j)) = Exited
  ∧ _timeElapsed (steps 4 (cancel j)) = _timeElapsed j.
Proof.
  cbv zeta. split; [reflexivity|]. split; [reflexivity|].
  destruct (cancel_ends_the_loop
              (with_pc Wait
                 (init {| filename := "cube.gcode"; origin := "local" |} (VInt 3)))
              0) as (_ & _ & _ & _ & _ & H).
  destruct (H eq_refl) as [H1 H2]. split; [exact H1|exact (H2 4)].
Defined.

End JobSimulatorFacts.

(** ** The plugin *)

Module VirtualCommsFacts.
Import VirtualComms.
Local Open Scope vc_scope.

(** *** Properties kept by a computation *)

Section Preserves.
Context (P : System → Prop).

Lemma preserves_ret {A} (a : A) : preserves P (ret a).
Proof. intros s H. exact H. Qed.

Lemma preserves_raise {A} e : preserves P (@raise A e).
Proof. intros s H. exact H. Qed.

Lemma preserves_lift {A} (r : result A) : preserves P (lift r).
Proof. intros s H. exact H. Qed.

Lemma preserves_get : preserves P get.
Proof. intros s H. exact H. Qed.

Lemma preserves_modify f : (∀ s, P s → P (f s)) → preserves P (modify f).
Proof. intros Hf s H. apply Hf, H. Qed.

Lemma preserves_bind {A B} (m : M A) (k : A → M B) :
  preserves P m → (∀ a, preserves P (k a)) → preserves P (bind m k).
Proof.
  intros Hm Hk s H. unfold bind. specialize (Hm s H).
  destruct (m s) as [[a|e] s']; simpl in *; [apply Hk|]; exact Hm.
Qed.

Lemma preserves_when b m : preserves P m → preserves P (when b m).
Proof. intros Hm. destruct b; [exact Hm|apply preserves_ret]. Qed.

End Preserves.

Create HintDb vc.
#[local] Hint Unfold connect run_doConnect run_heatupDone run_callback
  cancel_timer fire startPrint setPaused setPause executeCancelCommands
  _changePrinterState fireSystemEvent_ setTemperature_ perform : vc.

(** Splits a method into its statements; [tac] settles each assignment. *)
Ltac preserves_with tac :=
  repeat first
    [ apply preserves_ret | apply preserves_raise | apply preserves_get
    | apply preserves_lift
    | apply preserves_bind; [|intros ?]
    | apply preserves_when
    | apply preserves_modify; intros ? ?; tac
    | match goal with
      | |- preserves _ (match ?x with _ => _ end) => destruct x
      | |- preserves _ (start_timer _ _) => intros ? ?; tac
      end
    | progress cbn iota
    | progress autounfold with vc ].

Ltac field_kept :=
  simpl; repeat case_match; simpl; first [assumption | congruence].

(** *** What the worker threads leave alone *)

Section Frames.
Variable py_int : string → option Z.

Lemma emits_self cs : ∀ s, self (foldl (flip emit) s cs) = self s.
Proof. induction cs as [|c cs IH]; intros s; [reflexivity|]. simpl. by rewrite IH. Qed.

Lemma emits_timers cs : ∀ s, timers (foldl (flip emit) s cs) = timers s.
Proof. induction cs as [|c cs IH]; intros s; [reflexivity|]. simpl. by rewrite IH. Qed.

Lemma emits_ramps cs : ∀ s, ramps (foldl (flip emit) s cs) = ramps s.
Proof. induction cs as [|c cs IH]; intros s; [reflexivity|]. simpl. by rewrite IH. Qed.

Lemma ramp_step_self r s : self (ramp_step py_int r s) = self s.
Proof.
  unfold ramp_step. destruct (ramps s !! r) as [ramp|]; [|reflexivity].
  destruct (TempsChanger.step py_int ramp). by rewrite emits_self.
Qed.

Lemma ramp_step_timers r s : timers (ramp_step py_int r s) = timers s.
Proof.
  unfold ramp_step. destruct (ramps s !! r) as [ramp|]; [|reflexivity].
  destruct (TempsChanger.step py_int ramp). by rewrite emits_timers.
Qed.

Lemma ramp_step_ramps r s :
  ramps (ramp_step py_int r s)
  = match ramps s !! r with
    | Some ramp => <[r := fst (TempsChanger.step py_int ramp)]> (ramps s)
    | None => ramps s
    end.
Proof.
  unfold ramp_step. destruct (ramps s !! r) as [ramp|]; [|reflexivity].
  destruct (TempsChanger.step py_int ramp). by rewrite emits_ramps.
Qed.

Lemma join_ramp_self fuel r : ∀ s, self (join_ramp py_int fuel r s) = self s.
Proof.
  induction fuel as [|fuel IH]; intros s; [reflexivity|]. simpl.
  destruct (ramps s !! r) as [ramp|]; [|reflexivity].
  destruct (TempsChanger.isAlive ramp); [|reflexivity].
  by rewrite IH, ramp_step_self.
Qed.

Lemma join_ramp_timers fuel r : ∀ s, timers (join_ramp py_int fuel r s) = timers s.
Proof.
  induction fuel as [|fuel IH]; intros s; [reflexivity|]. simpl.
  destruct (ramps s !! r) as [ramp|]; [|reflexivity].
  destruct (TempsChanger.isAlive ramp); [|reflexivity].
  by rewrite IH, ramp_step_timers.
Qed.

Lemma preserves_perform_all P cs :
  (∀ c, preserves P (perform c)) → preserves P (perform_all cs).
Proof.
  intros H. induction cs as [|c cs IH]; simpl.
  - apply preserves_ret.
  - apply preserves_bind; [apply H|intros _; exact IH].
Qed.

Lemma preserves_job_step P i :
  (∀ s j, P s → P (with_jobs (<[i := j]> (jobs s)) s)) →
  (∀ c, preserves P (perform c)) →
  preserves P (modify (job_step i)).
Proof.
  intros Hj Hc s H. unfold modify, job_step. simpl.
  destruct (jobs s !! i) as [j|]; [|exact H].
  destruct (JobSimulator.step j) as [j' cs].
  apply preserves_perform_all; [exact Hc|]. apply Hj, H.
Qed.

(** The settings are never assigned after initialisation. *)
Lemma run_settings a c :
  preserves (fun s => _settings (self s) = c) (run py_int a).
Proof.
  destruct a; simpl; try (preserves_with field_kept).
  - unfold disconnect. preserves_with field_kept.
    apply preserves_modify. intros s H. by rewrite join_ramp_self.
  - apply preserves_modify. intros s H. by rewrite ramp_step_self.
  - apply preserves_job_step.
    + intros s j H. exact H.
    + intros c0. preserves_with field_kept.
Qed.

Lemma execs_settings l : ∀ s,
  _settings (self (execs py_int l s)) = _settings (self s).
Proof.
  induction l as [|a l IH]; intros s; [reflexivity|].
  simpl. rewrite IH. by apply (run_settings a).
Qed.

End Frames.

(** *** Starting a job *)

Lemma boot_settings f selected s0 k :
  boot f selected = Ok s0 → is_Some (dict_get (KStr k) Settings.defaults) →
  has_setting k s0.
Proof.
  unfold boot, initPrinterCommsService. intros Hb Hk.
  destruct (Settings.load_settings f) as [v|] eqn:Hl; [|discriminate].
  destruct (SettingsFacts.load_settings_keeps f v Hl) as (d & -> & Hd).
  injection Hb as <-. unfold has_setting. simpl.
  destruct (Hd k Hk) as [x ->]. eauto.
Qed.

Lemma startPrint_running s :
  job_alive s = true →
  startPrint s = (Raise (Exception "A Print Job is still running"), s).
Proof. intros H. unfold startPrint, bind, get. rewrite H. reflexivity. Qed.

Lemma startPrint_idle s v :
  job_alive s = false → getitem (_settings (self s)) "heatingUp" = Ok v →
  fst (startPrint s) = Ok tt
  ∧ _state (self (snd (startPrint s))) = STATE_PRINTING
  ∧ _printJob (self (snd (startPrint s))) = None
  ∧ _heatingUpTimer (self (snd (startPrint s))) = Some (length (timers s))
  ∧ timers (snd (startPrint s))
    = timers s ++ [{| interval := v; function := heatupDone (selectedFile s);
                      finished := false; waiting := true |}]
  ∧ jobs (snd (startPrint s)) = jobs s.
Proof.
  intros H Hv. unfold startPrint, bind, get. rewrite H.
  autounfold with vc. unfold bind, get, modify, lift, start_timer. simpl.
  repeat case_match; simpl in *; simplify_eq; repeat split; congruence.
Qed.

(** C1: in every state the system reaches from initialisation,
    [startPrint] raises "A Print Job is still running", and changes nothing,
    when the plugin refers to a job whose thread is alive; it returns, with
    the state set to printing, when every job the plugin refers to has a
    thread that has ended (the job completed or was cancelled, and [run]
    returned); and it raises nothing else. *)
Theorem startPrint_fails_iff_job_running (py_int : string → option Z)
  (f : Settings.settings_file) (selected : File) (s0 : System)
  (l : list action) :
  boot f selected = Ok s0 →
  let s := execs py_int l s0 in
  (∀ i j, _printJob (self s) = Some i → jobs s !! i = Some j →
          JobSimulator.isAlive j = true →
          startPrint s = (Raise (Exception "A Print Job is still running"), s))
  ∧ ((∀ i j, _printJob (self s) = Some i → jobs s !! i = Some j →
             JobSimulator.isAlive j = false) →
     fst (startPrint s) = Ok tt
     ∧ _state (self (snd (startPrint s))) = STATE_PRINTING)
  ∧ (∀ e, fst (startPrint s) = Raise e →
          e = Exception "A Print Job is still running"
          ∧ ∃ i j, _printJob (self s) = Some i ∧ jobs s !! i = Some j
                   ∧ JobSimulator.isAlive j = true).
Proof.
  intros Hb s.
  assert (Hset : has_setting "heatingUp" s).
  { destruct (boot_settings f selected s0 "heatingUp" Hb) as [v Hv]; [by eexists|].
    exists v. unfold s. by rewrite execs_settings. }
  destruct Hset as [v Hv].
  assert (Halive : job_alive s = true ↔
            ∃ i j, _printJob (self s) = Some i ∧ jobs s !! i = Some j
                   ∧ JobSimulator.isAlive j = true).
  { unfold job_alive. split.
    - intros H. destruct (_printJob (self s)) as [i|]; [|discriminate].
      destruct (jobs s !! i) as [j|] eqn:Ej; [|discriminate].
      exists i, j. auto.
    - intros (i & j & -> & -> & H). exact H. }
  split; [|split].
  - intros i j Hi Hj Ha. apply startPrint_running, Halive. eauto.
  - intros Hdead.
    assert (Hna : job_alive s = false).
    { destruct (Sumbool.sumbool_of_bool (job_alive s)) as [E|E]; [|exact E].
      apply Halive in E as (i & j & Hi & Hj & Ha).
      rewrite (Hdead i j Hi Hj) in Ha. discriminate. }
    destruct (startPrint_idle s v Hna Hv) as (H1 & H2 & _). auto.
  - intros e He. destruct (Sumbool.sumbool_of_bool (job_alive s)) as [E|E].
    + rewrite startPrint_running in He by exact E. simpl in He.
      split; [congruence|]. by apply Halive.
    + destruct (startPrint_idle s v E Hv) as (H1 & _). congruence.
Qed.

Lemma startPrint_fails_iff_job_running_witness :
  let py_int := fun _ : string => None in
  let s0 := fresh Settings.NoFile in
  let s := execs py_int [StartPrint; TimerFires 0; JobStep 0] s0 in
  let s' := execs py_int ([StartPrint; TimerFires 0] ++ repeat (JobStep 0) 60) s0 in
  boot Settings.NoFile some_file = Ok s0
  ∧ startPrint s = (Raise (Exception "A Print Job is still running"), s)
  ∧ fst (startPrint s') = Ok tt
  ∧ _state (self (snd (startPrint s'))) = STATE_PRINTING.
Proof.
  cbv zeta. split; [reflexivity|]. split.
  - pose proof (startPrint_fails_iff_job_running (fun _ => None) Settings.NoFile
                some_file (fresh Settings.NoFile)
                [StartPrint; TimerFires 0; JobStep 0] eq_refl) as H.
    cbv zeta in H. destruct H as (H & _).
    eapply (H 0); vm_compute; reflexivity.
  - pose proof (startPrint_fails_iff_job_running (fun _ => None) Settings.NoFile
                some_file (fresh Settings.NoFile)
                ([StartPrint; TimerFires 0] ++ repeat (JobStep 0) 60)
                eq_refl) as H.
    cbv zeta in H. destruct H as (_ & H & _).
    assert (Hp : _printJob (self (execs (fun _ => None)
                   ([StartPrint; TimerFires 0] ++ repeat (JobStep 0) 60)
                   (fresh Settings.NoFile))) = Some 0)
      by (vm_compute; reflexivity).
    assert (Hj : ∃ j0, jobs (execs (fun _ => None)
                   ([StartPrint; TimerFires 0] ++ repeat (JobStep 0) 60)
                   (fresh Settings.NoFile)) !! 0 = Some j0
                 ∧ JobSimulator.isAlive j0 = false)
      by (eexists; split; vm_compute; reflexivity).
    apply H. intros i j Hi Hj'. rewrite Hp in Hi. injection Hi as <-.
    destruct Hj as (j0 & Hj0 & Hd). rewrite Hj0 in Hj'. injection Hj' as <-.
    exact Hd.
Defined.

(** *** The heat-up window *)

Section Window.
Variable py_int : string → option Z.

Ltac no_job_kept :=
  unfold no_job in *; simpl;
  repeat match goal with H : _ ∧ _ |- _ => destruct H end;
  repeat case_match; simpl; split; congruence.

Lemma fire_unfold i s :
  fire i s
  = match timers s !! i with
    | Some tm =>
        when (waiting tm)
          (modify (fun s => with_timers (<[i := set_ran tm]> (timers s)) s);;
           when (negb (finished tm)) (run_callback (function tm);; cancel_timer i)) s
    | None => (Ok tt, s)
    end.
Proof. unfold fire, bind, get. destruct (timers s !! i); reflexivity. Qed.

Lemma executeCancelCommands_no_job b c :
  preserves (no_job c) (executeCancelCommands b).
Proof. preserves_with no_job_kept. Qed.

Lemma run_printJob_None a :
  (∀ i, a ≠ TimerFires i) →
  preserves (fun s => _printJob (self s) = None) (run py_int a).
Proof.
  intros Ha. destruct a as [| | |b|p|ty v|i|r|i| |f]; simpl;
    try (preserves_with field_kept; fail).
  - unfold disconnect. preserves_with field_kept.
    apply preserves_modify. intros s H. by rewrite join_ramp_self.
  - by destruct (Ha i).
  - apply preserves_modify. intros s H. by rewrite ramp_step_self.
  - apply preserves_job_step.
    + intros s j H. exact H.
    + intros c0. preserves_with field_kept.
Qed.

Lemma timer_thread_printJob_None i tm :
  function tm = doConnect →
  preserves (fun s => _printJob (self s) = None)
    (when (waiting tm)
       (modify (fun s => with_timers (<[i := set_ran tm]> (timers s)) s);;
        when (negb (finished tm)) (run_callback (function tm);; cancel_timer i))).
Proof. intros ->. preserves_with field_kept. Qed.

Lemma exec_printJob_None a s :
  fires_heatup s a = false → _printJob (self s) = None →
  _printJob (self (exec py_int a s)) = None.
Proof.
  intros Hq Hn. unfold exec.
  assert (Hcase : (∃ i, a = TimerFires i) ∨ ∀ i, a ≠ TimerFires i).
  { destruct a; try (right; discriminate). left. eauto. }
  destruct Hcase as [[i ->]|Hne].
  - simpl in *. rewrite fire_unfold.
    destruct (timers s !! i) as [tm|]; [|exact Hn].
    apply (timer_thread_printJob_None i tm); [|exact Hn].
    destruct (function tm); [reflexivity|discriminate].
  - apply (run_printJob_None a); [exact Hne|exact Hn].
Qed.

Lemma window_printJob l : ∀ s,
  _printJob (self s) = None → before_heatup py_int l s →
  _printJob (self (execs py_int l s)) = None.
Proof.
  induction l as [|a l IH]; intros s Hn Hq; [exact Hn|].
  destruct Hq as [Ha Hq]. simpl. apply IH; [|exact Hq].
  by apply exec_printJob_None.
Qed.

Lemma startPrint_ok_printJob s :
  fst (startPrint s) = Ok tt → _printJob (self (snd (startPrint s))) = None.
Proof.
  unfold startPrint, bind, get. destruct (job_alive s); [discriminate|].
  autounfold with vc. unfold bind, get, modify, lift, start_timer. simpl.
  repeat case_match; simpl in *; simplify_eq; intros; simplify_eq; reflexivity.
Qed.

(** C10: after [startPrint] has returned, and as long as no timer running
    [heatupDone] fires, whatever else is called or runs, the plugin refers
    to no job: the print time, the progress and the file position are
    [None], the filament data is [0] and its sum is [0],
    [executeCancelCommands] leaves every job as it is, and [startPrint]
    does not raise "A Print Job is still running". *)
Theorem no_active_job_while_heating (s : System) (l : list action)
  (disableMotorsAndHeater : bool) :
  fst (startPrint s) = Ok tt →
  before_heatup py_int l (snd (startPrint s)) →
  let s' := execs py_int l (snd (startPrint s)) in
  _printJob (self s') = None
  ∧ printTime s' = None
  ∧ printProgress s' = None
  ∧ printFilePosition s' = None
  ∧ consumedFilamentData s' = inr 0%Z
  ∧ consumedFilamentSum s' = 0%Z
  ∧ jobs (exec py_int (ExecuteCancelCommands disableMotorsAndHeater) s') = jobs s'
  ∧ fst (startPrint s') ≠ Raise (Exception "A Print Job is still running").
Proof.
  intros Hok Hq s'.
  assert (Hn : _printJob (self s') = None).
  { apply window_printJob; [|exact Hq]. by apply startPrint_ok_printJob. }
  split; [exact Hn|].
  unfold printTime, printProgress, printFilePosition, consumedFilamentData,
    consumedFilamentSum, the_job. rewrite Hn.
  repeat (split; [reflexivity|]). split.
  - apply (executeCancelCommands_no_job disableMotorsAndHeater (jobs s') s').
    by split.
  - unfold startPrint, bind, get, job_alive. rewrite Hn.
    autounfold with vc. unfold bind, get, modify, lift, start_timer, getitem.
    simpl. repeat case_match; simpl in *; simplify_eq; congruence.
Qed.

End Window.

Lemma no_active_job_while_heating_witness :
  let py_int := fun _ : string => None in
  let s := fresh Settings.NoFile in
  let l := [SetTemperature "bed" 70%Z; SetPaused true; Connect; TimerFires 1] in
  let s' := execs py_int l (snd (startPrint s)) in
  fst (startPrint s) = Ok tt
  ∧ before_heatup py_int l (snd (startPrint s))
  ∧ _printJob (self s') = None
  ∧ printTime s' = None
  ∧ fst (startPrint s') ≠ Raise (Exception "A Print Job is still running").
Proof.
  cbv zeta.
  assert (Hok : fst (startPrint (fresh Settings.NoFile)) = Ok tt) by reflexivity.
  assert (Hq : before_heatup (fun _ => None)
                 [SetTemperature "bed" 70%Z; SetPaused true; Connect; TimerFires 1]
                 (snd (startPrint (fresh Settings.NoFile))))
    by (repeat split; vm_compute; reflexivity).
  split; [exact Hok|]. split; [exact Hq|].
  destruct (no_active_job_while_heating (fun _ => None) (fresh Settings.NoFile)
              [SetTemperature "bed" 70%Z; SetPaused true; Connect; TimerFires 1]
              true Hok Hq) as (H1 & H2 & _ & _ & _ & _ & _ & H8).
  split; [exact H1|]. split; [exact H2|exact H8].
Defined.

(** *** Disconnecting *)

Section Disconnect.
Variable py_int : string → option Z.

Lemma ramp_stopped_step ramp :
  TempsChanger._stopped ramp = true →
  TempsChanger._stopped (fst (TempsChanger.step py_int ramp)) = true
  ∧ ramp_rank (TempsChanger.at_pc (fst (TempsChanger.step py_int ramp)))
    ≤ pred (ramp_rank (TempsChanger.at_pc ramp)).
Proof.
  intros Hs. unfold TempsChanger.step. rewrite Hs.
  destruct (TempsChanger.at_pc ramp) eqn:E; simpl; rewrite ?E; simpl; auto.
  destruct (TempsChanger.nudge_all ramp); simpl; [|auto].
  destruct (TempsChanger._updateTemps py_int _); simpl; auto.
Qed.

Lemma ramp_rank_dead ramp :
  ramp_rank (TempsChanger.at_pc ramp) = 0 → TempsChanger.isAlive ramp = false.
Proof.
  unfold TempsChanger.isAlive. by destruct (TempsChanger.at_pc ramp).
Qed.

Lemma ramp_step_lookup r s ramp :
  ramps s !! r = Some ramp →
  ramps (ramp_step py_int r s) !! r = Some (fst (TempsChanger.step py_int ramp)).
Proof.
  intros H. rewrite ramp_step_ramps, H.
  apply list_lookup_insert_eq. by apply lookup_lt_Some in H.
Qed.

Lemma join_ramp_dead fuel r : ∀ s ramp,
  ramps s !! r = Some ramp → TempsChanger._stopped ramp = true →
  ramp_rank (TempsChanger.at_pc ramp) ≤ fuel →
  ∃ ramp', ramps (join_ramp py_int fuel r s) !! r = Some ramp'
           ∧ TempsChanger._stopped ramp' = true
           ∧ TempsChanger.isAlive ramp' = false.
Proof.
  induction fuel as [|fuel IH]; intros s ramp Hr Hs Hrank; simpl.
  - exists ramp. repeat split; auto. apply ramp_rank_dead. lia.
  - rewrite Hr. destruct (TempsChanger.isAlive ramp) eqn:Ha; [|eauto].
    destruct (ramp_stopped_step ramp Hs) as [Hs' Hrank'].
    apply (IH _ _ (ramp_step_lookup r s ramp Hr) Hs'). lia.
Qed.

Lemma ramp_dead_update r k g s ramp0 :
  (∀ x, TempsChanger.isAlive (g x) = TempsChanger.isAlive x) →
  ramps s !! k = Some ramp0 → ramp_dead r s →
  ramp_dead r (with_ramps (<[k := g ramp0]> (ramps s)) s).
Proof.
  intros Hg Hk (ramp & Hr & Hd). unfold ramp_dead. simpl.
  destruct (decide (k = r)) as [->|Hne].
  - exists (g ramp0). rewrite list_lookup_insert_eq by (by apply lookup_lt_Some in Hr).
    split; [reflexivity|]. rewrite Hg. congruence.
  - exists ramp. by rewrite list_lookup_insert_ne.
Qed.

Lemma ramp_dead_append r x s :
  ramp_dead r s → ramp_dead r (with_ramps (ramps s ++ [x]) s).
Proof.
  intros (ramp & Hr & Hd). exists ramp. split; [|exact Hd]. simpl.
  rewrite lookup_app_l; [exact Hr|]. by apply lookup_lt_Some in Hr.
Qed.

Lemma dead_ramp_step ramp :
  TempsChanger.isAlive ramp = false → TempsChanger.step py_int ramp = (ramp, []).
Proof.
  unfold TempsChanger.isAlive, TempsChanger.step.
  by destruct (TempsChanger.at_pc ramp).
Qed.

Lemma ramp_step_alive ramp :
  TempsChanger.isAlive ramp = false →
  TempsChanger.isAlive (fst (TempsChanger.step py_int ramp)) = false.
Proof. intros H. by rewrite dead_ramp_step. Qed.

Lemma ramp_dead_ramp_step r k s : ramp_dead r s → ramp_dead r (ramp_step py_int k s).
Proof.
  intros (ramp & Hr & Hd). unfold ramp_dead. rewrite ramp_step_ramps.
  destruct (ramps s !! k) as [x|] eqn:Hk; [|eauto].
  destruct (decide (k = r)) as [->|Hne].
  - rewrite list_lookup_insert_eq by (by apply lookup_lt_Some in Hr).
    eexists. split; [reflexivity|]. apply ramp_step_alive. congruence.
  - exists ramp. by rewrite list_lookup_insert_ne.
Qed.

Lemma ramp_dead_join r k fuel : ∀ s,
  ramp_dead r s → ramp_dead r (join_ramp py_int fuel k s).
Proof.
  induction fuel as [|fuel IH]; intros s H; [exact H|]. simpl.
  destruct (ramps s !! k) as [x|]; [|exact H].
  destruct (TempsChanger.isAlive x); [|exact H].
  by apply IH, ramp_dead_ramp_step.
Qed.

Ltac ramp_dead_kept :=
  first
    [ assumption
    | apply ramp_dead_append; assumption
    | simpl; repeat case_match; simplify_eq;
      first [ assumption
            | eapply (ramp_dead_update _ _ (TempsChanger.setTarget _ _));
              [reflexivity|eassumption|assumption]
            | eapply (ramp_dead_update _ _ TempsChanger.stop);
              [reflexivity|eassumption|assumption] ] ].

Lemma run_ramp_dead r a : preserves (ramp_dead r) (run py_int a).
Proof.
  destruct a as [| | |b|p|ty v|i|k|i| |f]; simpl;
    try (preserves_with ramp_dead_kept; fail).
  - unfold disconnect. preserves_with ramp_dead_kept.
    apply preserves_modify. intros s H. by apply ramp_dead_join.
  - apply preserves_modify. intros s H. by apply ramp_dead_ramp_step.
  - apply preserves_job_step.
    + intros s j H. exact H.
    + intros c0. preserves_with ramp_dead_kept.
Qed.

Lemma execs_ramp_dead r l : ∀ s, ramp_dead r s → ramp_dead r (execs py_int l s).
Proof.
  induction l as [|a l IH]; intros s H; [exact H|].
  simpl. apply IH. by apply (run_ramp_dead r a).
Qed.

Lemma dead_ramp_is_silent r s :
  ramp_dead r s → exec py_int (RampStep r) s = s.
Proof.
  intros (ramp & Hr & Hd). unfold exec. simpl. unfold ramp_step.
  rewrite Hr, dead_ramp_step by exact Hd. simpl.
  rewrite list_insert_id by exact Hr. by destruct s.
Qed.

Lemma disconnect_not_connected s :
  _comm (self s) = false → disconnect py_int s = (Ok tt, s).
Proof. intros H. unfold disconnect, bind, get. rewrite H. reflexivity. Qed.

#[local] Arguments join_ramp : simpl never.

Lemma disconnect_connected s :
  _comm (self s) = true →
  let s' := snd (disconnect py_int s) in
  fst (disconnect py_int s) = Ok tt
  ∧ _comm (self s') = false
  ∧ _temperatureChanger (self s') = None
  ∧ _state (self s') = STATE_CLOSED
  ∧ ∀ r ramp, _temperatureChanger (self s) = Some r → ramps s !! r = Some ramp →
      ∃ ramp', ramps s' !! r = Some ramp'
               ∧ TempsChanger._stopped ramp' = true
               ∧ TempsChanger.isAlive ramp' = false.
Proof.
  intros H. unfold disconnect, bind, get. rewrite H.
  autounfold with vc. unfold when, bind, get, modify. simpl.
  destruct (_temperatureChanger (self s)) as [r|] eqn:Hr; simpl.
  - rewrite ?join_ramp_self.
    split; [reflexivity|]. split; [by destruct (ramps s !! r)|].
    do 2 (split; [reflexivity|]). intros r' ramp [= <-] Hramp.
    rewrite Hramp.
    apply (join_ramp_dead 3 r _ (TempsChanger.stop ramp)).
    + simpl. apply list_lookup_insert_eq. by apply lookup_lt_Some in Hramp.
    + reflexivity.
    + simpl. destruct (TempsChanger.at_pc ramp); simpl; lia.
  - do 4 (split; [auto|]). intros r ramp [=].
Qed.

(** C7, as the code has it: when [_comm] is unset [disconnect] changes
    nothing; when it is set, [disconnect] returns with [_comm] unset, no
    reference to a ramp and the state closed, the ramp the plugin referred
    to is stopped and its thread has ended, and whatever is called or runs
    afterwards a step of that thread changes nothing (it makes no call);
    disconnecting twice is the same as disconnecting once. *)
Theorem disconnect_stops_the_ramp (s : System) :
  (_comm (self s) = false → disconnect py_int s = (Ok tt, s))
  ∧ (_comm (self s) = true →
       let s' := snd (disconnect py_int s) in
       fst (disconnect py_int s) = Ok tt
       ∧ _comm (self s') = false
       ∧ _temperatureChanger (self s') = None
       ∧ _state (self s') = STATE_CLOSED
       ∧ ∀ r ramp,
           _temperatureChanger (self s) = Some r → ramps s !! r = Some ramp →
           (∃ ramp', ramps s' !! r = Some ramp'
                     ∧ TempsChanger._stopped ramp' = true
                     ∧ TempsChanger.isAlive ramp' = false)
           ∧ ∀ l, exec py_int (RampStep r) (execs py_int l s')
                  = execs py_int l s')
  ∧ snd (disconnect py_int (snd (disconnect py_int s)))
    = snd (disconnect py_int s).
Proof.
  split; [apply disconnect_not_connected|]. split.
  - intros H s'.
    destruct (disconnect_connected s H) as (H1 & H2 & H3 & H4 & H5).
    do 4 (split; [assumption|]). intros r ramp Hr Hramp.
    destruct (H5 r ramp Hr Hramp) as (ramp' & Hl & Hs & Hd).
    split; [eauto|]. intros l. apply dead_ramp_is_silent, execs_ramp_dead.
    exists ramp'. auto.
  - destruct (_comm (self s)) eqn:H.
    + pose proof (disconnect_connected s H) as Hc. cbv zeta in Hc.
      destruct Hc as (_ & H2 & _).
      rewrite (disconnect_not_connected _ H2). reflexivity.
    + rewrite (disconnect_not_connected _ H). simpl.
      rewrite (disconnect_not_connected _ H). reflexivity.
Qed.

End Disconnect.

Lemma disconnect_stops_the_ramp_witness :
  let py_int := fun s : string => if String.eqb s "0" then Some 0%Z else None in
  let s := execs py_int [Connect; TimerFires 0; RampStep 0; RampStep 0]
             (fresh Settings.NoFile) in
  let s' := snd (disconnect py_int s) in
  _comm (self s) = true
  ∧ _temperatureChanger (self s) = Some 0
  ∧ (∃ ramp, ramps s !! 0 = Some ramp
             ∧ TempsChanger._stopped ramp = false
             ∧ TempsChanger.isAlive ramp = true)
  ∧ _state (self s') = STATE_CLOSED
  ∧ (∃ ramp', ramps s' !! 0 = Some ramp'
              ∧ TempsChanger._stopped ramp' = true
              ∧ TempsChanger.isAlive ramp' = false)
  ∧ exec py_int (RampStep 0) (execs py_int [Connect; RampStep 0] s')
    = execs py_int [Connect; RampStep 0] s'.
Proof.
  cbv zeta.
  pose (py_int := fun s : string => if String.eqb s "0" then Some 0%Z else None).
  pose (s := execs py_int [Connect; TimerFires 0; RampStep 0; RampStep 0]
               (fresh Settings.NoFile)).
  assert (Hc : _comm (self s) = true) by reflexivity.
  assert (Hr : _temperatureChanger (self s) = Some 0) by reflexivity.
  assert (Hl : ∃ ramp, ramps s !! 0 = Some ramp
                       ∧ TempsChanger._stopped ramp = false
                       ∧ TempsChanger.isAlive ramp = true)
    by (eexists; split; [vm_compute; reflexivity|split; reflexivity]).
  split; [exact Hc|]. split; [exact Hr|]. split; [exact Hl|].
  destruct (disconnect_stops_the_ramp py_int s) as (_ & H & _).
  destruct (H Hc) as (_ & _ & _ & Hst & Hramp).
  split; [exact Hst|].
  destruct Hl as (ramp & Hl & _).
  destruct (Hramp 0 ramp Hr Hl) as [Hdead Hsilent].
  split; [exact Hdead|]. exact (Hsilent [Connect; RampStep 0]).
Defined.

(** C7 (as the specification has it) fails: [disconnect] stops the ramp
    the plugin refers to, not every ramp.  After a second [connect] the
    plugin refers to the second ramp and the first one is still running;
    [disconnect] returns with the state closed, and the thread of the
    first ramp goes on calling [mcTempUpdate]. *)
Lemma orphaned_ramp_reports_after_disconnect :
  let py_int := fun s : string => if String.eqb s "0" then Some 0%Z else None in
  let s := execs py_int [Connect; TimerFires 0; Connect; TimerFires 1]
             (fresh Settings.NoFile) in
  let s' := snd (disconnect py_int s) in
  connected s = true
  ∧ fst (disconnect py_int s) = Ok tt
  ∧ _state (self s') = STATE_CLOSED
  ∧ _temperatureChanger (self s') = None
  ∧ trace (execs py_int [RampStep 0; RampStep 0] s')
    = trace s' ++ [mcTempUpdate {[ 0%Z := (5%Z, 25%Z) ]} (Some (5%Z, 25%Z))].
Proof. cbv zeta. repeat split; vm_compute; reflexivity. Qed.

(** *** The deferred actions *)

Section Timers.
Variable py_int : string → option Z.

Lemma preserves_and {A} (P Q : System → Prop) (m : M A) :
  preserves P m → preserves Q m → preserves (fun s => P s ∧ Q s) m.
Proof. intros HP HQ s [H1 H2]. split; [by apply HP|by apply HQ]. Qed.

Lemma fire_as_steps k s :
  fire k s
  = match timers s !! k with
    | Some tm =>
        if waiting tm
        then when (negb (finished tm)) (run_callback (function tm);; cancel_timer k)
               (with_timers (<[k := set_ran tm]> (timers s)) s)
        else (Ok tt, s)
    | None => (Ok tt, s)
    end.
Proof.
  unfold fire, bind, get. destruct (timers s !! k) as [tm|]; [|reflexivity].
  destruct (waiting tm); reflexivity.
Qed.

Lemma fire_preserves (P : System → Prop) k :
  (∀ s tm, P s → timers s !! k = Some tm →
           P (with_timers (<[k := set_ran tm]> (timers s)) s)) →
  (∀ f, preserves P (run_callback f)) →
  preserves P (cancel_timer k) →
  preserves P (fire k).
Proof.
  intros Hran Hcb Hcancel s H. rewrite fire_as_steps.
  destruct (timers s !! k) as [tm|] eqn:Hk; [|exact H].
  destruct (waiting tm); [|exact H].
  apply preserves_when; [|by apply Hran].
  apply preserves_bind; [apply Hcb|intros _; exact Hcancel].
Qed.

(** **** [heatup_ref] always holds *)

Lemma heatup_ref_frame s s' :
  heatup_ref s → timers s' = timers s →
  _heatingUpTimer (self s') = _heatingUpTimer (self s) → heatup_ref s'.
Proof. intros H Ht Hh t. rewrite Ht, Hh. apply H. Qed.

Lemma heatup_ref_none s : _heatingUpTimer (self s) = None → heatup_ref s.
Proof. intros H t. rewrite H. discriminate. Qed.

Lemma heatup_ref_append s s' x :
  heatup_ref s → timers s' = timers s ++ [x] →
  _heatingUpTimer (self s') = _heatingUpTimer (self s) → heatup_ref s'.
Proof.
  intros H Ht Hh t. rewrite Ht, Hh. intros E.
  destruct (H t E) as (tm & f & Htm & Hf). exists tm, f. split; [|exact Hf].
  rewrite lookup_app_l; [exact Htm|]. by apply lookup_lt_Some in Htm.
Qed.

Lemma heatup_ref_insert s s' k tm tm' :
  heatup_ref s → timers s !! k = Some tm → function tm' = function tm →
  timers s' = <[k := tm']> (timers s) →
  _heatingUpTimer (self s') = _heatingUpTimer (self s) → heatup_ref s'.
Proof.
  intros H Hk Hf Ht Hh t. rewrite Ht, Hh. intros E.
  destruct (H t E) as (tm0 & f & Htm & Hf0).
  destruct (decide (k = t)) as [->|Hne].
  - exists tm', f. rewrite list_lookup_insert_eq by (by apply lookup_lt_Some in Htm).
    split; [reflexivity|]. congruence.
  - exists tm0, f. by rewrite list_lookup_insert_ne.
Qed.

Lemma heatup_ref_new s l tm f :
  timers s = l ++ [tm] → function tm = heatupDone f →
  _heatingUpTimer (self s) = Some (length l) → heatup_ref s.
Proof.
  intros Ht Hf Hh t. rewrite Hh, Ht. intros [= <-]. exists tm, f.
  split; [|exact Hf]. rewrite lookup_app_r by lia.
  by rewrite Nat.sub_diag.
Qed.

Ltac heatup_ref_kept :=
  simpl; repeat case_match; simplify_eq;
  first
    [ assumption
    | apply heatup_ref_none; reflexivity
    | eapply heatup_ref_frame; [eassumption|reflexivity|reflexivity]
    | eapply heatup_ref_append; [eassumption|reflexivity|reflexivity]
    | eapply (heatup_ref_insert _ _ _ _ (set_finished _));
      [eassumption|eassumption|reflexivity|reflexivity|reflexivity]
    | eapply (heatup_ref_insert _ _ _ _ (set_ran _));
      [eassumption|eassumption|reflexivity|reflexivity|reflexivity] ].

Lemma startPrint_heatup_ref : preserves heatup_ref startPrint.
Proof.
  intros s H. unfold startPrint, bind, get.
  destruct (job_alive s); [exact H|].
  autounfold with vc. unfold bind, get, modify, lift, start_timer. simpl.
  repeat case_match; simpl in *; simplify_eq;
    first [ eapply heatup_ref_new; simpl; reflexivity
          | eapply heatup_ref_frame; [exact H|reflexivity|reflexivity] ].
Qed.

Lemma run_heatup_ref a : preserves heatup_ref (run py_int a).
Proof.
  destruct a as [| | |b|p|ty v|i|k|i| |f]; simpl;
    try (preserves_with heatup_ref_kept; fail).
  - unfold disconnect. preserves_with heatup_ref_kept.
    apply preserves_modify. intros s H.
    eapply heatup_ref_frame; [exact H|apply join_ramp_timers|by rewrite join_ramp_self].
  - apply startPrint_heatup_ref.
  - apply fire_preserves.
    + intros s tm H Hk. heatup_ref_kept.
    + intros f. preserves_with heatup_ref_kept.
    + preserves_with heatup_ref_kept.
  - apply preserves_modify. intros s H.
    eapply heatup_ref_frame; [exact H|apply ramp_step_timers|by rewrite ramp_step_self].
  - apply preserves_job_step.
    + intros s j H. exact H.
    + intros c0. preserves_with heatup_ref_kept.
Qed.

Lemma execs_heatup_ref l : ∀ s, heatup_ref s → heatup_ref (execs py_int l s).
Proof.
  induction l as [|a l IH]; intros s H; [exact H|].
  simpl. apply IH. by apply (run_heatup_ref a).
Qed.

(** **** A set event stays set *)

Lemma timer_finished_frame i s s' :
  timer_finished i s → timers s' = timers s → timer_finished i s'.
Proof. intros H Ht. unfold timer_finished. by rewrite Ht. Qed.

Lemma timer_finished_append i s s' x :
  timer_finished i s → timers s' = timers s ++ [x] → timer_finished i s'.
Proof.
  intros (tm & Htm & Hf) Ht. exists tm. split; [|exact Hf]. rewrite Ht.
  rewrite lookup_app_l; [exact Htm|]. by apply lookup_lt_Some in Htm.
Qed.

Lemma timer_finished_insert i s s' k tm tm' :
  timer_finished i s → timers s !! k = Some tm →
  (finished tm = true → finished tm' = true) →
  timers s' = <[k := tm']> (timers s) → timer_finished i s'.
Proof.
  intros (tm0 & Htm & Hf) Hk Hff Ht. unfold timer_finished. rewrite Ht.
  destruct (decide (k = i)) as [->|Hne].
  - exists tm'. rewrite list_lookup_insert_eq by (by apply lookup_lt_Some in Htm).
    split; [reflexivity|]. apply Hff. congruence.
  - exists tm0. by rewrite list_lookup_insert_ne.
Qed.

Ltac timer_finished_kept :=
  simpl; repeat case_match; simplify_eq;
  first
    [ assumption
    | eapply timer_finished_frame; [eassumption|reflexivity]
    | eapply timer_finished_append; [eassumption|reflexivity]
    | eapply (timer_finished_insert _ _ _ _ _ (set_finished _));
      [eassumption|eassumption|reflexivity|reflexivity]
    | eapply (timer_finished_insert _ _ _ _ _ (set_ran _));
      [eassumption|eassumption|intros E; exact E|reflexivity] ].

Lemma run_timer_finished i a : preserves (timer_finished i) (run py_int a).
Proof.
  destruct a as [| | |b|p|ty v|k|k|k| |f]; simpl;
    try (preserves_with timer_finished_kept; fail).
  - unfold disconnect. preserves_with timer_finished_kept.
    apply preserves_modify. intros s H.
    eapply timer_finished_frame; [exact H|apply join_ramp_timers].
  - apply fire_preserves.
    + intros s tm H Hk. timer_finished_kept.
    + intros f. preserves_with timer_finished_kept.
    + preserves_with timer_finished_kept.
  - apply preserves_modify. intros s H.
    eapply timer_finished_frame; [exact H|apply ramp_step_timers].
  - apply preserves_job_step.
    + intros s j H. exact H.
    + intros c0. preserves_with timer_finished_kept.
Qed.

Lemma execs_timer_finished i l : ∀ s,
  timer_finished i s → timer_finished i (execs py_int l s).
Proof.
  induction l as [|a l IH]; intros s H; [exact H|].
  simpl. apply IH. by apply (run_timer_finished i a).
Qed.

(** The thread of a finished timer does not call its function: it only
    leaves the waiting state. *)
Lemma finished_timer_fires_nothing i s :
  timer_finished i s →
  self (exec py_int (TimerFires i) s) = self s
  ∧ jobs (exec py_int (TimerFires i) s) = jobs s
  ∧ ramps (exec py_int (TimerFires i) s) = ramps s
  ∧ trace (exec py_int (TimerFires i) s) = trace s.
Proof.
  intros (tm & Htm & Hf). unfold exec. simpl. rewrite fire_as_steps, Htm, Hf.
  destruct (waiting tm); simpl; auto.
Qed.

(** **** Nothing cancels the connect timer *)

Lemma connect_pending_frame i s s' :
  connect_pending i s → timers s' = timers s → connect_pending i s'.
Proof. intros H Ht. unfold connect_pending. by rewrite Ht. Qed.

Lemma connect_pending_append i s s' x :
  connect_pending i s → timers s' = timers s ++ [x] → connect_pending i s'.
Proof.
  intros (tm & Htm & Hf) Ht. exists tm. split; [|exact Hf]. rewrite Ht.
  rewrite lookup_app_l; [exact Htm|]. by apply lookup_lt_Some in Htm.
Qed.

Lemma connect_pending_insert i s s' k x :
  connect_pending i s → k ≠ i → timers s' = <[k := x]> (timers s) →
  connect_pending i s'.
Proof.
  intros (tm & Htm & Hf) Hne Ht. exists tm. split; [|exact Hf].
  rewrite Ht. by rewrite list_lookup_insert_ne.
Qed.

Lemma heatup_ref_not_connect i s t :
  connect_pending i s → heatup_ref s → _heatingUpTimer (self s) = Some t →
  t ≠ i.
Proof.
  intros (tm & Htm & Hf & _) Hr Ht ->.
  destruct (Hr i Ht) as (tm' & f & Htm' & Hf'). congruence.
Qed.

Ltac connect_pending_kept :=
  simpl; repeat case_match; simplify_eq;
  first
    [ assumption
    | eapply connect_pending_frame; [eassumption|reflexivity]
    | eapply connect_pending_append; [eassumption|reflexivity]
    | eapply connect_pending_insert; [eassumption| |reflexivity]; assumption ].

Ltac connect_safe_kept :=
  match goal with H : connect_safe _ _ |- _ => destruct H end;
  split; [connect_pending_kept|heatup_ref_kept].

Lemma cancel_heatup_connect_safe i s t :
  connect_safe i s → _heatingUpTimer (self s) = Some t →
  connect_safe i
    match timers s !! t with
    | Some tm => with_timers (<[t := set_finished tm]> (timers s)) s
    | None => s
    end.
Proof.
  intros [Hc Hr] Ht.
  pose proof (heatup_ref_not_connect i s t Hc Hr Ht) as Hne.
  destruct (timers s !! t) as [tm|] eqn:Htm; [|by split]. split.
  - eapply connect_pending_insert; [exact Hc|exact Hne|reflexivity].
  - eapply (heatup_ref_insert _ _ _ _ (set_finished tm));
      [exact Hr|exact Htm|reflexivity|reflexivity|reflexivity].
Qed.

Lemma executeCancelCommands_connect_safe i b :
  preserves (connect_safe i) (executeCancelCommands b).
Proof.
  unfold executeCancelCommands.
  apply preserves_bind; [preserves_with connect_safe_kept|intros _].
  apply preserves_bind; [apply preserves_get|intros s1].
  apply preserves_bind; [preserves_with connect_safe_kept|intros _].
  intros s H. unfold bind at 1. unfold get at 1. cbn beta iota.
  destruct (_heatingUpTimer (self s)) as [t|] eqn:Ht; [|exact H].
  unfold cancel_timer.
  match goal with
  | |- ?P (snd (bind (modify ?g) ?k ?s)) => change (P (snd (k tt (g s))))
  end.
  cbn beta.
  match goal with
  | |- ?P (snd (?m ?s')) => cut (preserves P m); [intros Hp; apply Hp|]
  end.
  - by apply cancel_heatup_connect_safe.
  - preserves_with connect_safe_kept.
Qed.

Lemma run_connect_safe i a :
  a ≠ TimerFires i → preserves (connect_safe i) (run py_int a).
Proof.
  intros Ha. destruct a as [| | |b|p|ty v|k|k|k| |f]; simpl;
    try (preserves_with connect_safe_kept; fail).
  - unfold disconnect. preserves_with connect_safe_kept.
    apply preserves_modify. intros s [Hc Hr]. split.
    + eapply connect_pending_frame; [exact Hc|apply join_ramp_timers].
    + eapply heatup_ref_frame;
        [exact Hr|apply join_ramp_timers|by rewrite join_ramp_self].
  - apply preserves_and; [|apply startPrint_heatup_ref].
    preserves_with connect_pending_kept.
  - apply executeCancelCommands_connect_safe.
  - assert (Hne : k ≠ i) by congruence.
    apply preserves_and; [|apply (run_heatup_ref (TimerFires k))].
    apply fire_preserves.
    + intros s tm H Hk. connect_pending_kept.
    + intros f. preserves_with connect_pending_kept.
    + preserves_with connect_pending_kept.
  - apply preserves_modify. intros s [Hc Hr]. split.
    + eapply connect_pending_frame; [exact Hc|apply ramp_step_timers].
    + eapply heatup_ref_frame;
        [exact Hr|apply ramp_step_timers|by rewrite ramp_step_self].
  - apply preserves_job_step.
    + intros s j H. exact H.
    + intros c0. preserves_with connect_safe_kept.
Qed.

Lemma execs_connect_safe i l : ∀ s,
  TimerFires i ∉ l → connect_safe i s → connect_safe i (execs py_int l s).
Proof.
  induction l as [|a l IH]; intros s Hl H; [exact H|].
  apply not_elem_of_cons in Hl as [Ha Hl].
  simpl. apply IH; [exact Hl|]. apply (run_connect_safe i a); [congruence|exact H].
Qed.

Lemma boot_heatup_ref f selected s0 : boot f selected = Ok s0 → heatup_ref s0.
Proof.
  unfold boot, initPrinterCommsService.
  destruct (Settings.load_settings f); [|discriminate].
  intros [= <-]. by apply heatup_ref_none.
Qed.

Lemma connect_starts_timer s v :
  getitem (_settings (self s)) "connection" = Ok v →
  fst (connect s) = Ok tt
  ∧ timers (snd (connect s))
    = timers s ++ [{| interval := v; function := doConnect;
                      finished := false; waiting := true |}]
  ∧ _heatingUpTimer (self (snd (connect s))) = _heatingUpTimer (self s)
  ∧ _state (self (snd (connect s))) = STATE_CONNECTING
  ∧ _comm (self (snd (connect s))) = true.
Proof.
  intros Hv. unfold connect. autounfold with vc.
  unfold bind, get, modify, lift, start_timer. simpl. rewrite Hv. simpl. auto.
Qed.

Ltac heatup_held_kept :=
  match goal with H : heatup_held _ _ |- _ => destruct H end;
  split; [heatup_ref_kept|field_kept].

Ltac heatup_cancelled_kept :=
  match goal with H : heatup_cancelled _ _ |- _ => destruct H end;
  split; [timer_finished_kept|field_kept].

Lemma setPaused_returns p s : fst (setPaused p s) = Ok tt.
Proof.
  unfold setPaused. autounfold with vc. unfold bind, get, modify.
  destruct p; reflexivity.
Qed.

Lemma executeCancelCommands_cancels i b s :
  heatup_held i s → heatup_cancelled i (snd (executeCancelCommands b s)).
Proof.
  unfold executeCancelCommands. intros H.
  match goal with
  | |- ?Q (snd (bind ?m1 (fun _ => bind get (fun s1 => bind (@?m2 s1) ?k)) ?s)) =>
      assert (H1 : preserves (heatup_held i) m1) by preserves_with heatup_held_kept;
      assert (H2 : ∀ s1, preserves (heatup_held i) (m2 s1))
        by (intros ?; preserves_with heatup_held_kept);
      pose proof (H1 s H) as H1';
      change (Q (snd (bind (m2 (snd (m1 s))) k (snd (m1 s)))));
      pose proof (H2 (snd (m1 s)) _ H1') as H2';
      unfold bind at 1;
      destruct (m2 (snd (m1 s)) (snd (m1 s))) as [[[]|e] s2] eqn:E2
  end.
  - simpl in H2'. destruct H2' as [Hr Hi].
    unfold bind at 1. unfold get at 1. cbn beta iota. rewrite Hi.
    destruct (Hr i Hi) as (tm & f & Htm & Hf).
    unfold cancel_timer.
    match goal with
    | |- ?P (snd (bind (modify ?g) ?k ?s)) => change (P (snd (k tt (g s))))
    end.
    cbn beta.
    match goal with
    | |- ?P (snd (bind (modify ?g) ?k ?s)) => change (P (snd (k tt (g s))))
    end.
    cbn beta.
    match goal with
    | |- ?P (snd (?m ?s')) => cut (preserves P m); [intros Hp; apply Hp|]
    end.
    + rewrite Htm. split; [|reflexivity]. exists (set_finished tm). split; [|reflexivity].
      simpl. apply list_lookup_insert_eq. by apply lookup_lt_Some in Htm.
    + preserves_with heatup_cancelled_kept.
  - exfalso. cbn beta in E2. unfold when in E2.
    destruct (isPaused _).
    + unfold setPause in E2.
      match type of E2 with
      | setPaused false ?x = _ => pose proof (setPaused_returns false x) as Hok
      end.
      rewrite E2 in Hok. discriminate.
    + discriminate.
Qed.

(** C6, as the code has it, in every state the system reaches from
    initialisation: [startPrint] leaves the plugin referring to the heat-up
    timer it has started; [executeCancelCommands] cancels the heat-up timer
    the plugin refers to and drops the reference, and from then on,
    whatever is called or runs, the timer stays finished and its firing
    calls nothing ([heatupDone] does not run); [connect] starts a timer that
    the plugin does not refer to, and nothing but its own firing ends it:
    no method cancels it. *)
Theorem heatup_timer_is_cancellable_connect_timer_is_not
  (f : Settings.settings_file) (selected : File) (s0 : System)
  (l1 : list action) :
  boot f selected = Ok s0 →
  let s := execs py_int l1 s0 in
  (fst (startPrint s) = Ok tt →
     _heatingUpTimer (self (snd (startPrint s))) = Some (length (timers s))
     ∧ ∃ tm, timers (snd (startPrint s)) !! length (timers s) = Some tm
             ∧ function tm = heatupDone (selectedFile s)
             ∧ finished tm = false ∧ waiting tm = true)
  ∧ (∀ i b, _heatingUpTimer (self s) = Some i →
       _heatingUpTimer (self (exec py_int (ExecuteCancelCommands b) s)) = None
       ∧ ∀ l2,
           let s' := execs py_int l2 (exec py_int (ExecuteCancelCommands b) s) in
           timer_finished i s'
           ∧ self (exec py_int (TimerFires i) s') = self s'
           ∧ jobs (exec py_int (TimerFires i) s') = jobs s'
           ∧ ramps (exec py_int (TimerFires i) s') = ramps s'
           ∧ trace (exec py_int (TimerFires i) s') = trace s')
  ∧ (fst (connect s) = Ok tt
     ∧ connect_pending (length (timers s)) (exec py_int Connect s)
     ∧ _heatingUpTimer (self (exec py_int Connect s)) = _heatingUpTimer (self s)
     ∧ ∀ l2, TimerFires (length (timers s)) ∉ l2 →
             connect_pending (length (timers s))
               (execs py_int l2 (exec py_int Connect s))).
Proof.
  intros Hb s.
  assert (Hr : heatup_ref s) by (apply execs_heatup_ref, (boot_heatup_ref _ _ _ Hb)).
  assert (Hset : ∀ k : string, is_Some (dict_get (KStr k) Settings.defaults) →
            ∃ v, getitem (_settings (self s)) k = Ok v).
  { intros k Hk. destruct (boot_settings f selected s0 k Hb Hk) as [v Hv].
    exists v. unfold s. by rewrite execs_settings. }
  split; [|split].
  - intros Hok.
    destruct (Hset "heatingUp") as [v Hv]; [by eexists|].
    assert (Hna : job_alive s = false).
    { destruct (Sumbool.sumbool_of_bool (job_alive s)) as [E|E]; [|exact E].
      rewrite (startPrint_running s E) in Hok. discriminate. }
    destruct (startPrint_idle s v Hna Hv) as (_ & _ & _ & Ht & Hl & _).
    split; [exact Ht|]. rewrite Hl. eexists. split.
    + rewrite lookup_app_r by lia. rewrite Nat.sub_diag. reflexivity.
    + auto.
  - intros i b Hi.
    pose proof (executeCancelCommands_cancels i b s (conj Hr Hi)) as [Hfin Hnone].
    split; [exact Hnone|]. intros l2 s'.
    assert (Hfin' : timer_finished i s') by (by apply execs_timer_finished).
    split; [exact Hfin'|]. by apply finished_timer_fires_nothing.
  - destruct (Hset "connection") as [v Hv]; [by eexists|].
    destruct (connect_starts_timer s v Hv) as (Hok & Ht & Hh & _).
    assert (Hc : connect_pending (length (timers s)) (exec py_int Connect s)).
    { unfold exec. simpl. eexists. rewrite Ht. split.
      - rewrite lookup_app_r by lia. rewrite Nat.sub_diag. reflexivity.
      - auto. }
    split; [exact Hok|]. split; [exact Hc|]. split; [exact Hh|].
    intros l2 Hl2. apply execs_connect_safe; [exact Hl2|]. split; [exact Hc|].
    apply (run_heatup_ref Connect). exact Hr.
Qed.

End Timers.

Lemma heatup_timer_is_cancellable_connect_timer_is_not_witness :
  let py_int := fun _ : string => None in
  let s0 := fresh Settings.NoFile in
  let s := execs py_int [StartPrint] s0 in
  let sc := exec py_int (ExecuteCancelCommands true) s in
  boot Settings.NoFile some_file = Ok s0
  ∧ _heatingUpTimer (self s) = Some 0
  ∧ _heatingUpTimer (self sc) = None
  ∧ jobs (exec py_int (TimerFires 0) (execs py_int [HostShutsDown] sc))
    = jobs (execs py_int [HostShutsDown] sc)
  ∧ connect_pending (length (timers s))
      (execs py_int [Disconnect; ExecuteCancelCommands true]
         (exec py_int Connect s)).
Proof.
  cbv zeta.
  assert (Hh : _heatingUpTimer (self (execs (fun _ => None) [StartPrint]
                 (fresh Settings.NoFile))) = Some 0) by (vm_compute; reflexivity).
  pose proof (heatup_timer_is_cancellable_connect_timer_is_not (fun _ => None)
              Settings.NoFile some_file (fresh Settings.NoFile) [StartPrint]
              eq_refl) as H.
  cbv zeta in H. destruct H as (_ & Hcancel & _ & _ & _ & Hconn).
  split; [reflexivity|]. split; [exact Hh|].
  destruct (Hcancel 0 true Hh) as [Hnone Hafter].
  split; [exact Hnone|]. split.
  - exact (proj1 (proj2 (proj2 (Hafter [HostShutsDown])))).
  - apply (Hconn [Disconnect; ExecuteCancelCommands true]).
    intros Hin. repeat (apply elem_of_cons in Hin as [Hin|Hin]; [discriminate|]).
    inversion Hin.
Defined.

(** C6 (as the specification has it) fails: the plugin keeps no reference
    to the connect timer, the timer survives [disconnect] and
    [executeCancelCommands], and its function runs afterwards. *)
Lemma connect_timer_fires_after_disconnect :
  let py_int := fun _ : string => None in
  let s1 := exec py_int Connect (fresh Settings.NoFile) in
  let s2 := execs py_int [Disconnect; ExecuteCancelCommands true] s1 in
  let s3 := exec py_int (TimerFires 0) s2 in
  _heatingUpTimer (self s1) = None
  ∧ timers s1 = [{| interval := VFloat 1; function := doConnect;
                    finished := false; waiting := true |}]
  ∧ _state (self s2) = STATE_CLOSED
  ∧ timers s2 = timers s1
  ∧ _state (self s3) = STATE_OPERATIONAL
  ∧ _temperatureChanger (self s3) = Some 0
  ∧ length (ramps s3) = 1
  ∧ _comm (self s3) = false.
Proof. cbv zeta. repeat split; vm_compute; reflexivity. Qed.

(** C2: with [printJob] set to 3 (integer or float) and [heatingUp] to 0,
    after [startPrint], the firing of the heat-up timer and eighteen steps
    of the job thread, the thread has returned from [run] with an elapsed
    time of 3, a layer count of 3, a completion equal to 1 and 30 of
    filament for tool 0; the calls made are the three pairs of layer change
    and progress, then the end of the job reported as a success, with
    [PRINT_DONE] carrying time 3 and layer count 3. *)
Theorem three_unit_job_runs_three_ticks (py_int : string → option Z)
  (jobLength : value) :
  jobLength = VInt 3 ∨ jobLength = VFloat 3 →
  let s0 := fresh (Settings.Document
                     (VDict [(KStr "printJob", jobLength); (KStr "heatingUp", VInt 0)])) in
  let s := execs py_int ([StartPrint; TimerFires 0] ++ repeat (JobStep 0) 18) s0 in
  (∃ j, jobs s !! 0 = Some j
        ∧ JobSimulator.at_pc j = JobSimulator.Exited
        ∧ JobSimulator._timeElapsed j = 3%Z
        ∧ JobSimulator._currentLayer j = 3%Z
        ∧ Qeq (to_Q (JobSimulator._percentCompleted j)) 1
        ∧ JobSimulator._consumedFilament j !! 0%Z = Some 30%Z)
  ∧ printTime s = Some 3%Z
  ∧ trace s
    = [ changePrinterState STATE_PRINTING;
        fireSystemEvent PRINT_STARTED (printFileInfo some_file);
        mcHeatingUpUpdate true;
        mcHeatingUpUpdate false;
        mcLayerChange 1; mcProgress;
        mcLayerChange 2; mcProgress;
        mcLayerChange 3; mcProgress;
        changePrinterState STATE_OPERATIONAL;
        mcPrintjobDone;
        printSucceeded "cube.gcode" 3 3;
        fireSystemEvent PRINT_DONE
          {| p_file := "cube.gcode"; p_filename := "cube.gcode";
             p_origin := "local"; p_time := Some 3%Z;
             p_layerCount := Some 3%Z |} ].
Proof.
  intros [-> | ->]; cbv zeta; (split; [|split]).
  - eexists. split; [vm_compute; reflexivity|]. repeat split; vm_compute; reflexivity.
  - vm_compute. reflexivity.
  - vm_compute. reflexivity.
  - eexists. split; [vm_compute; reflexivity|]. repeat split; vm_compute; reflexivity.
  - vm_compute. reflexivity.
  - vm_compute. reflexivity.
Qed.

Lemma three_unit_job_runs_three_ticks_witness :
  let s0 := fresh (Settings.Document
                     (VDict [(KStr "printJob", VInt 3); (KStr "heatingUp", VInt 0)])) in
  let s := execs (fun _ => None)
             ([StartPrint; TimerFires 0] ++ repeat (JobStep 0) 18) s0 in
  (VInt 3 = VInt 3 ∨ VInt 3 = VFloat 3)
  ∧ printTime s = Some 3%Z.
Proof.
  cbv zeta. split; [left; reflexivity|].
  exact (proj1 (proj2 (three_unit_job_runs_three_ticks (fun _ => None) (VInt 3)
                         (or_introl eq_refl)))).
Defined.

End VirtualCommsFacts.
